(** * bl4ckDAT: the dashboard reducer and the Signal bootstrap script

  A shallow embedding of
  - [client/src/components/Dashboard.tsx]: the socket event handlers
    that fold server events into the dashboard's React state, and
  - [src/scripts/init-signal.ts]: the script that starts or creates the
    [signal-api] Docker container,
  together with the properties the specification states about them. *)

From Stdlib Require Import String Ascii List ZArith QArith Bool Lia.
From Stdlib Require Import Sorted Permutation.
Import ListNotations.
Local Close Scope Q_scope.
Local Open Scope list_scope.
Local Open Scope string_scope.

(** ** JavaScript strings: the three methods the dashboard uses *)

Module JsString.

(** [s.includes(needle)] *)
Definition includes (needle s : string) : bool :=
  match index 0 needle s with
  | Some _ => true
  | None => false
  end.

(** [s.replace(pat, rep)] with a string pattern: only the first
    occurrence is replaced. *)
Definition replace (pat rep s : string) : string :=
  match index 0 pat s with
  | Some i =>
      substring 0 i s ++ rep
        ++ substring (i + String.length pat)
             (String.length s - (i + String.length pat)) s
  | None => s
  end.

(** [s.split(sep)[0]] for a one-character separator: the text before
    the first separator, the whole string when there is none. *)
Fixpoint split_head (sep : ascii) (s : string) : string :=
  match s with
  | EmptyString => EmptyString
  | String c r => if Ascii.eqb c sep then EmptyString
                  else String c (split_head sep r)
  end.

(** Truthiness of a string value that may be [undefined]. *)
Definition truthy (o : option string) : bool :=
  match o with
  | Some s => negb (s =? "")
  | None => false
  end.

(** [a || b] where [a] is [string | undefined] and [b] a string. *)
Definition or_else (a : option string) (b : string) : string :=
  match a with
  | Some s => if s =? "" then b else s
  | None => b
  end.

End JsString.

(** ** JavaScript [Map] with string keys

  A [Map] iterates in insertion order and the dashboard renders
  [contacts.values()] in that order, so the model is an association list
  in insertion order.  [set] on a key that is present replaces the value
  in place, on a new key it appends; a [Map] holds a key at most once
  ([keys_nodup] below is preserved by every operation). *)

Module JsMap.
Section WithValue.
Context {V : Type}.

Definition t := list (string * V).

Definition empty : t := [].

Fixpoint get (k : string) (m : t) : option V :=
  match m with
  | [] => None
  | (k', v) :: r => if k =? k' then Some v else get k r
  end.

Definition has (k : string) (m : t) : bool :=
  match get k m with Some _ => true | None => false end.

(** [set] keeps the place of a key that is present and appends a new
    one. *)
Fixpoint set (k : string) (v : V) (m : t) : t :=
  match m with
  | [] => [(k, v)]
  | (k', v') :: r =>
      if k =? k' then (k, v) :: r else (k', v') :: set k v r
  end.

(** [delete] drops the entry stored under [k]; written as a filter, it
    needs no assumption that the list holds [k] once. *)
Fixpoint delete (k : string) (m : t) : t :=
  match m with
  | [] => []
  | (k', v') :: r =>
      if k =? k' then delete k r else (k', v') :: delete k r
  end.

Definition keys (m : t) : list string := map fst m.

Definition values (m : t) : list V := map snd m.

Definition keys_nodup (m : t) : Prop := NoDup (keys m).

End WithValue.
Arguments t : clear implicits.
End JsMap.

(** ** Data model of [Dashboard.tsx] *)

(** [Platform] is imported from [../App]; the two values are the ones
  this component compares against and falls back to. *)
Inductive Platform := whatsapp | signal.

Inductive ProbeMethod := delete | reaction.

(** JavaScript numbers are only stored and copied by the handlers, never
  computed with; they are modelled as integers. *)
Definition number := Z.

Module TrackerData.
Record t := mk {
  rtt : number;
  avg : number;
  median : number;
(** [data.threshold] is copied without a presence check *)
  threshold : option number;
  state : string;
  timestamp : number
}.
End TrackerData.

Module DeviceInfo.
Record t := mk {
  jid : string;
  state : string;
  rtt : number;
  avg : number
}.
End DeviceInfo.

Module ContactInfo.
Record t := mk {
  jid : string;
  displayNumber : string;
  contactName : string;
  data : list TrackerData.t;
  devices : list DeviceInfo.t;
  deviceCount : number;
  presence : option string;
  profilePic : option string;
  platform : Platform
}.

(** Object spread with one field overridden: [{ ...c, field: v }]. *)
Definition with_presence (v : option string) (c : t) : t :=
  mk (jid c) (displayNumber c) (contactName c) (data c) (devices c)
     (deviceCount c) v (profilePic c) (platform c).
Definition with_deviceCount (v : number) (c : t) : t :=
  mk (jid c) (displayNumber c) (contactName c) (data c) (devices c)
     v (presence c) (profilePic c) (platform c).
Definition with_devices (v : list DeviceInfo.t) (c : t) : t :=
  mk (jid c) (displayNumber c) (contactName c) (data c) v
     (deviceCount c) (presence c) (profilePic c) (platform c).
Definition with_data (v : list TrackerData.t) (c : t) : t :=
  mk (jid c) (displayNumber c) (contactName c) v (devices c)
     (deviceCount c) (presence c) (profilePic c) (platform c).
Definition with_profilePic (v : option string) (c : t) : t :=
  mk (jid c) (displayNumber c) (contactName c) (data c) (devices c)
     (deviceCount c) (presence c) v (platform c).
Definition with_contactName (v : string) (c : t) : t :=
  mk (jid c) (displayNumber c) v (data c) (devices c)
     (deviceCount c) (presence c) (profilePic c) (platform c).
End ContactInfo.

(** The payload of a [tracker-update] event.  The handler takes it as
  [any]; every field may be absent ([undefined], [None] here), and
  [presence] may also be present with the value [null]. *)
Module TrackerUpdate.
Record t := mk {
  jid : option string;
  presence : option (option string);
  deviceCount : option number;
  devices : option (list DeviceInfo.t);
  median : option number;
  threshold : option number
}.
End TrackerUpdate.

(** The [useState] cells of the [Dashboard] component. *)
Module Dashboard.
Record t := mk {
  inputNumber : string;
  selectedPlatform : Platform;
  contacts : JsMap.t ContactInfo.t;
  error : option string;
  privacyMode : bool;
  probeMethod : ProbeMethod;
  showConnections : bool;
  newContact : string
}.

(** The initial values given to [useState]; [whatsappConnected] is
  [connectionState.whatsapp]. *)
Definition initial (whatsappConnected : bool) : t :=
  mk "" (if whatsappConnected then whatsapp else signal) JsMap.empty None
     false delete false "".

(** The state setters. *)
Definition setContacts (f : JsMap.t ContactInfo.t -> JsMap.t ContactInfo.t)
    (s : t) : t :=
  mk (inputNumber s) (selectedPlatform s) (f (contacts s)) (error s)
     (privacyMode s) (probeMethod s) (showConnections s) (newContact s).
Definition setError (e : option string) (s : t) : t :=
  mk (inputNumber s) (selectedPlatform s) (contacts s) e
     (privacyMode s) (probeMethod s) (showConnections s) (newContact s).
Definition setProbeMethod (m : ProbeMethod) (s : t) : t :=
  mk (inputNumber s) (selectedPlatform s) (contacts s) (error s)
     (privacyMode s) m (showConnections s) (newContact s).
Definition setInputNumber (v : string) (s : t) : t :=
  mk v (selectedPlatform s) (contacts s) (error s)
     (privacyMode s) (probeMethod s) (showConnections s) (newContact s).
Definition setNewContact (v : string) (s : t) : t :=
  mk (inputNumber s) (selectedPlatform s) (contacts s) (error s)
     (privacyMode s) (probeMethod s) (showConnections s) v.
End Dashboard.

(** ** The socket event handlers of [Dashboard.tsx]

    Each handler calls [setContacts] (or another setter) with a function
    of the previous value; [new Map(prev)] copies the map, which a pure
    model does not distinguish from [prev] itself. *)

(** The chart point of [onTrackerUpdate] (lines 80-90), recorded only
    when the event carries a median and a non-empty device list.  [now]
    is the value of [Date.now()]. *)
Definition newDataPoint (now : number) (data : TrackerUpdate.t)
    : option TrackerData.t :=
  match TrackerUpdate.median data, TrackerUpdate.devices data with
  | Some median, Some ((d0 :: _) as devices) =>
      Some (TrackerData.mk
              (DeviceInfo.rtt d0)
              (DeviceInfo.avg d0)
              median
              (TrackerUpdate.threshold data)
              (JsString.or_else
                 (option_map DeviceInfo.state
                    (find (fun d => JsString.includes "Online"
                                      (DeviceInfo.state d)) devices))
                 (DeviceInfo.state d0))
              now)
  | _, _ => None
  end.

(** The body of [if (contact) { ... }]: the copy of the contact with the
    fields of the event merged in. *)
Definition updatedContact (now : number) (data : TrackerUpdate.t)
    (contact : ContactInfo.t) : ContactInfo.t :=
  let c := contact in
  let c := match TrackerUpdate.presence data with
           | Some p => ContactInfo.with_presence p c
           | None => c
           end in
  let c := match TrackerUpdate.deviceCount data with
           | Some n => ContactInfo.with_deviceCount n c
           | None => c
           end in
  let c := match TrackerUpdate.devices data with
           | Some ds => ContactInfo.with_devices ds c
           | None => c
           end in
  match newDataPoint now data with
  | Some p => ContactInfo.with_data (ContactInfo.data c ++ [p])%list c
  | None => c
  end.

(** [if (!jid) return;] leaves on a missing jid and on the empty string,
    which are both falsy. *)
Definition onTrackerUpdate (now : number) (update : TrackerUpdate.t)
    (s : Dashboard.t) : Dashboard.t :=
  if negb (JsString.truthy (TrackerUpdate.jid update)) then s
  else
    match TrackerUpdate.jid update with
    | Some jid =>
        Dashboard.setContacts (fun prev =>
          let next := prev in
          match JsMap.get jid next with
          | Some contact =>
              JsMap.set jid (updatedContact now update contact) next
          | None => next
          end) s
    | None => s
    end.

Definition onProfilePic (jid : string) (url : option string)
    (s : Dashboard.t) : Dashboard.t :=
  Dashboard.setContacts (fun prev =>
    let next := prev in
    match JsMap.get jid next with
    | Some contact =>
        JsMap.set jid (ContactInfo.with_profilePic url contact) next
    | None => next
    end) s.

Definition onContactName (jid : string) (name : string)
    (s : Dashboard.t) : Dashboard.t :=
  Dashboard.setContacts (fun prev =>
    let next := prev in
    match JsMap.get jid next with
    | Some contact =>
        JsMap.set jid (ContactInfo.with_contactName name contact) next
    | None => next
    end) s.

(** [data.platform || 'whatsapp'] *)
Definition platform_or_whatsapp (p : option Platform) : Platform :=
  match p with
  | Some p => p
  | None => whatsapp
  end.

Definition onContactAdded (jid : string) (number : string)
    (platform : option Platform) (s : Dashboard.t) : Dashboard.t :=
  let s := Dashboard.setContacts (fun prev =>
    let next := prev in
    JsMap.set jid
      (ContactInfo.mk jid number number [] [] 0%Z None None
         (platform_or_whatsapp platform)) next) s in
  let s := Dashboard.setInputNumber "" s in
  Dashboard.setNewContact "" s.

Definition onContactRemoved (jid : string) (s : Dashboard.t)
    : Dashboard.t :=
  Dashboard.setContacts (fun prev =>
    let next := prev in
    JsMap.delete jid next) s.

(** [onError] sets the message and arms a timer; the timer is returned
    as its delay in milliseconds and the state change it performs when
    it fires. *)
Definition onError (jid : option string) (message : string)
    (s : Dashboard.t) : Dashboard.t :=
  Dashboard.setError (Some message) s.

Definition onError_timeout : Z * (Dashboard.t -> Dashboard.t) :=
  (3000%Z, Dashboard.setError None).

Definition onProbeMethod (method : ProbeMethod) (s : Dashboard.t)
    : Dashboard.t :=
  Dashboard.setProbeMethod method s.

(** The display number [onTrackedContacts] extracts from an id. *)
Definition displayNumber_of (id : string) (platform : Platform) : string :=
  match platform with
  | signal => JsString.replace "signal:" "" id
  | whatsapp => JsString.split_head "@" id
  end.

(** The entry [onTrackedContacts] creates for an id that is not tracked. *)
Definition bootstrapEntry (id : string) (platform : Platform)
    : ContactInfo.t :=
  let displayNumber := displayNumber_of id platform in
  ContactInfo.mk id displayNumber displayNumber [] [] 0%Z None None
    platform.

(** One iteration of [contacts.forEach] in [onTrackedContacts]. *)
Definition trackedContacts_step (next : JsMap.t ContactInfo.t)
    (entry : string * Platform) : JsMap.t ContactInfo.t :=
  let '(id, platform) := entry in
  if negb (JsMap.has id next)
  then JsMap.set id (bootstrapEntry id platform) next
  else next.

Definition onTrackedContacts (contacts : list (string * Platform))
    (s : Dashboard.t) : Dashboard.t :=
  Dashboard.setContacts (fun prev =>
    let next := prev in
    fold_left trackedContacts_step contacts next) s.

(** The events the component subscribes to ([socket.on], lines 188-195). *)
Inductive Event :=
| TrackerUpdateEvent (update : TrackerUpdate.t)
| ProfilePicEvent (jid : string) (url : option string)
| ContactNameEvent (jid : string) (name : string)
| ContactAddedEvent (jid : string) (number : string)
    (platform : option Platform)
| ContactRemovedEvent (jid : string)
| ErrorEvent (jid : option string) (message : string)
| ProbeMethodEvent (method : ProbeMethod)
| TrackedContactsEvent (contacts : list (string * Platform)).

Definition dispatch (now : number) (e : Event) (s : Dashboard.t)
    : Dashboard.t :=
  match e with
  | TrackerUpdateEvent update => onTrackerUpdate now update s
  | ProfilePicEvent jid url => onProfilePic jid url s
  | ContactNameEvent jid name => onContactName jid name s
  | ContactAddedEvent jid number platform =>
      onContactAdded jid number platform s
  | ContactRemovedEvent jid => onContactRemoved jid s
  | ErrorEvent jid message => onError jid message s
  | ProbeMethodEvent method => onProbeMethod method s
  | TrackedContactsEvent contacts => onTrackedContacts contacts s
  end.

(** The state after a sequence of events, each with the clock reading at
    which it is handled. *)
Definition replay (events : list (number * Event)) (s : Dashboard.t)
    : Dashboard.t :=
  fold_left (fun s ne => dispatch (fst ne) (snd ne) s) events s.

(** ** What the component sends and shows

    The rest of [Dashboard.tsx]: the commands emitted on the socket, the
    handlers of the user's actions, and the list of contact cards. *)

(** [socket.emit] with its payload. *)
Inductive Command :=
| GetTrackedContacts
| AddContact (number : string) (platform : Platform)
| RemoveContact (jid : string)
| SetProbeMethod (method : ProbeMethod).

(** [connectionState], a prop of the component (its type is imported
    from [../App]); the component reads these two fields. *)
Module ConnectionState.
Record t := mk {
  whatsapp : bool;
  signal : bool
}.
End ConnectionState.

Definition connected (cs : ConnectionState.t) (p : Platform) : bool :=
  match p with
  | whatsapp => ConnectionState.whatsapp cs
  | signal => ConnectionState.signal cs
  end.

Definition setSelectedPlatform (p : Platform) (s : Dashboard.t)
    : Dashboard.t :=
  Dashboard.mk (Dashboard.inputNumber s) p (Dashboard.contacts s)
    (Dashboard.error s) (Dashboard.privacyMode s) (Dashboard.probeMethod s)
    (Dashboard.showConnections s) (Dashboard.newContact s).

Definition setPrivacyMode (v : bool) (s : Dashboard.t) : Dashboard.t :=
  Dashboard.mk (Dashboard.inputNumber s) (Dashboard.selectedPlatform s)
    (Dashboard.contacts s) (Dashboard.error s) v (Dashboard.probeMethod s)
    (Dashboard.showConnections s) (Dashboard.newContact s).

Definition setShowConnections (v : bool) (s : Dashboard.t) : Dashboard.t :=
  Dashboard.mk (Dashboard.inputNumber s) (Dashboard.selectedPlatform s)
    (Dashboard.contacts s) (Dashboard.error s) (Dashboard.privacyMode s)
    (Dashboard.probeMethod s) v (Dashboard.newContact s).

(** [handleAdd] (lines 212-215): nothing is sent for an empty input. *)
Definition handleAdd (s : Dashboard.t) : list Command :=
  if negb (JsString.truthy (Some (Dashboard.newContact s))) then []
  else [AddContact (Dashboard.newContact s) (Dashboard.selectedPlatform s)].

Definition handleRemove (jid : string) : list Command :=
  [RemoveContact jid].

Definition handleProbeMethodChange (method : ProbeMethod) : list Command :=
  [SetProbeMethod method].

(** The user's actions: the [onChange], [onKeyPress] and [onClick]
    handlers of the returned JSX. *)
Inductive UserAction :=
| TypeNewContact (value : string)
| PressAdd
| ClickRemove (jid : string)
| ClickProbeMethod (method : ProbeMethod)
| TogglePrivacyMode
| ToggleShowConnections
| ClickPlatform (p : Platform).

(** The new state and the commands sent.  A platform button is
    [disabled] while its platform is not connected, and a disabled button
    does not fire [onClick]. *)
Definition act (cs : ConnectionState.t) (a : UserAction) (s : Dashboard.t)
    : Dashboard.t * list Command :=
  match a with
  | TypeNewContact value => (Dashboard.setNewContact value s, [])
  | PressAdd => (s, handleAdd s)
  | ClickRemove jid => (s, handleRemove jid)
  | ClickProbeMethod method => (s, handleProbeMethodChange method)
  | TogglePrivacyMode =>
      (setPrivacyMode (negb (Dashboard.privacyMode s)) s, [])
  | ToggleShowConnections =>
      (setShowConnections (negb (Dashboard.showConnections s)) s, [])
  | ClickPlatform p =>
      (if connected cs p then setSelectedPlatform p s else s, [])
  end.

(** What happens to the mounted component: an event from the server,
    handled at a clock reading, or an action of the user. *)
Inductive Input :=
| FromServer (now : number) (e : Event)
| FromUser (a : UserAction).

Definition step (cs : ConnectionState.t) (i : Input) (s : Dashboard.t)
    : Dashboard.t * list Command :=
  match i with
  | FromServer now e => (dispatch now e s, [])
  | FromUser a => act cs a s
  end.

(** The state after a sequence of inputs and everything sent meanwhile,
    oldest first. *)
Fixpoint session (cs : ConnectionState.t) (inputs : list Input)
    (s : Dashboard.t) : Dashboard.t * list Command :=
  match inputs with
  | [] => (s, [])
  | i :: rest =>
      let '(s1, sent1) := step cs i s in
      let '(s2, sent2) := session cs rest s1 in
      (s2, (sent1 ++ sent2)%list)
  end.

(** Mounting: the initial state, and the request for the tracked
    contacts sent once the listeners are registered (line 198). *)
Definition mount (cs : ConnectionState.t) : Dashboard.t * list Command :=
  (Dashboard.initial (ConnectionState.whatsapp cs), [GetTrackedContacts]).

(** The server events among the inputs, with their clock readings. *)
Definition server_events (inputs : list Input) : list (number * Event) :=
  flat_map (fun i => match i with
                     | FromServer now e => [(now, e)]
                     | FromUser _ => []
                     end) inputs.

(** The props given to each [ContactCard] (lines 358-371); [onRemove] is
    recorded as what invoking it sends. *)
Module ContactCard.
Record props := mk {
  key : string;
  jid : string;
  displayNumber : string;
  data : list TrackerData.t;
  devices : list DeviceInfo.t;
  deviceCount : number;
  presence : option string;
  profilePic : option string;
  onRemove : list Command;
  privacyMode : bool;
  platform : Platform
}.
End ContactCard.

Definition contactCard (s : Dashboard.t) (contact : ContactInfo.t)
    : ContactCard.props :=
  ContactCard.mk
    (ContactInfo.jid contact)
    (ContactInfo.jid contact)
    (ContactInfo.contactName contact)
    (ContactInfo.data contact)
    (ContactInfo.devices contact)
    (ContactInfo.deviceCount contact)
    (ContactInfo.presence contact)
    (ContactInfo.profilePic contact)
    (handleRemove (ContactInfo.jid contact))
    (Dashboard.privacyMode s)
    (ContactInfo.platform contact).

(** The contact list (lines 351-374): a placeholder when
    [contacts.size === 0], otherwise one card per value of the map, in
    the map's order. *)
Inductive ContactsPanel :=
| NoContacts
| ContactCards (cards : list ContactCard.props).

Definition contactsPanel (s : Dashboard.t) : ContactsPanel :=
  if Nat.eqb (List.length (Dashboard.contacts s)) 0 then NoContacts
  else ContactCards
         (map (contactCard s) (JsMap.values (Dashboard.contacts s))).

(** The cards of a panel, none for the placeholder. *)
Definition cards_of (p : ContactsPanel) : list ContactCard.props :=
  match p with
  | NoContacts => []
  | ContactCards cards => cards
  end.


(** A chart whose points are in the order of their timestamps, none
    later than [t]. *)
Definition chart_in_order (t : Z) (chart : list TrackerData.t) : Prop :=
  Sorted Z.le (map TrackerData.timestamp chart)
  /\ Forall (fun p => (TrackerData.timestamp p <= t)%Z) chart.

(** Every entry is stored under the jid it carries. *)
Definition entries_keyed (m : JsMap.t ContactInfo.t) : Prop :=
  forall k c, In (k, c) m -> ContactInfo.jid c = k.

(** Every chart of the map is in order, with no point later than [t]. *)
Definition charts_in_order (t : Z) (m : JsMap.t ContactInfo.t) : Prop :=
  forall k c, In (k, c) m -> chart_in_order t (ContactInfo.data c).

(** Two states that agree on the cells the server events write. *)
Definition same_server_cells (s1 s2 : Dashboard.t) : Prop :=
  Dashboard.contacts s1 = Dashboard.contacts s2
  /\ Dashboard.error s1 = Dashboard.error s2
  /\ Dashboard.probeMethod s1 = Dashboard.probeMethod s2.

(** An [add-contact] command that carries a number, and one that names
    a connected platform. *)
Definition add_has_number (c : Command) : Prop :=
  match c with
  | AddContact number _ => number <> ""
  | _ => True
  end.

Definition add_is_connected (cs : ConnectionState.t) (c : Command) : Prop :=
  match c with
  | AddContact _ platform => connected cs platform = true
  | _ => True
  end.


(** ** The bootstrap script [init-signal.ts]

    The script runs shell commands with [execSync], which throws when the
    command fails, inside nested [try]/[catch] blocks, and may end the
    process with [process.exit].  A computation takes the outcome of each
    command from the environment and appends what it does to a trace. *)

Module InitSignal.

Inductive effect :=
| Exec (cmd : string)
| Log (line : string)
| LogError (line : string).

Inductive result (A : Type) :=
| Ok (a : A)
| Throw
| Exit (code : Z).
Arguments Ok {A} a.
Arguments Throw {A}.
Arguments Exit {A} code.

(** [env cmd = true] when the command succeeds.  The script runs each
    command line at most once, so one answer per command line describes
    any run. *)
Definition env := string -> bool.

Definition M (A : Type) := env -> list effect -> result A * list effect.

Definition ret {A} (a : A) : M A := fun _ tr => (Ok a, tr).

Definition bind {A B} (m : M A) (k : A -> M B) : M B :=
  fun e tr =>
    match m e tr with
    | (Ok a, tr') => k a e tr'
    | (Throw, tr') => (Throw, tr')
    | (Exit c, tr') => (Exit c, tr')
    end.

Notation "m ;; k" := (bind m (fun _ => k))
  (at level 61, right associativity).

Definition execSync (cmd : string) : M unit :=
  fun e tr =>
    (if e cmd then Ok tt else Throw, (tr ++ [Exec cmd])%list).

Definition console_log (line : string) : M unit :=
  fun _ tr => (Ok tt, (tr ++ [Log line])%list).

Definition console_error (line : string) : M unit :=
  fun _ tr => (Ok tt, (tr ++ [LogError line])%list).

Definition process_exit (code : Z) : M unit :=
  fun _ tr => (Exit code, tr).

(** [try { body } catch (e) { handler }]: only a throw reaches the
    handler, [process.exit] ends the process at once. *)
Definition try_catch {A} (body handler : M A) : M A :=
  fun e tr =>
    match body e tr with
    | (Throw, tr') => handler e tr'
    | r => r
    end.

Section Script.

(** [path.join(os.homedir(), '.local', 'share', 'signal-api')] *)
Variable hostVolPath : string.

Definition CONTAINER_NAME := "signal-api".
Definition IMAGE_NAME := "bbernhard/signal-cli-rest-api".
(** The number 8080 as the template strings print it. *)
Definition PORT := "8080".
Definition containerVolPath := "/home/.local/share/signal-cli".

Definition docker_info := "docker info".
Definition docker_inspect := "docker inspect " ++ CONTAINER_NAME.
Definition docker_start := "docker start " ++ CONTAINER_NAME.
Definition docker_run :=
  "docker run -d --name " ++ CONTAINER_NAME ++ " -p " ++ PORT ++ ":" ++ PORT
  ++ " -v " ++ String (ascii_of_nat 34) (hostVolPath ++ ":" ++ containerVolPath)
  ++ String (ascii_of_nat 34) (" -e MODE=json-rpc " ++ IMAGE_NAME).

Definition main : M unit :=
  try_catch
    (try_catch
       (execSync docker_info)
       (console_log "ℹ️  Docker is not available in this environment." ;;
        console_log "   Signal messaging will be disabled, but WhatsApp will work normally." ;;
        console_log "   To use Signal, run this locally with Docker installed." ;;
        process_exit 0) ;;
     try_catch
       (execSync docker_inspect ;;
        console_log ("✅ Container '" ++ CONTAINER_NAME ++ "' found. Starting...") ;;
        execSync docker_start)
       (console_log ("🆕 Container '" ++ CONTAINER_NAME ++ "' not found. Creating...") ;;
        execSync docker_run))
    (console_error "❌ Failed to initialize Signal API container:" ;;
     process_exit 1).

(** What the operating system sees: the code given to [process.exit],
    0 when the script runs to its end, 1 for an uncaught exception. *)
Definition exit_status (r : result unit) : Z :=
  match r with
  | Ok _ => 0
  | Throw => 1
  | Exit c => c
  end.

Definition run (e : env) : result unit * list effect := main e [].

Definition commands (tr : list effect) : list string :=
  flat_map (fun x => match x with Exec c => [c] | _ => [] end) tr.

End Script.
End InitSignal.

(** ** The RTT Tracker's statistics

    The tracker runs on the server, whose code is not among the sources;
    its window statistics are written down from section 4.3 of the
    specification. *)

Module RttTracker.

(** Modelled from the spec: the value [currentStats()] returns,
    [{avg, median}]. *)
Record Stats := mkStats {
  avg : Q;
  median : Q
}.

(** Modelled from the spec: the ascending sort of a window, by
    insertion. *)
Fixpoint insert_ascending (x : Z) (l : list Z) : list Z :=
  match l with
  | [] => [x]
  | y :: r => if (x <=? y)%Z then x :: y :: r else y :: insert_ascending x r
  end.

(** Modelled from the spec: "after ascending sort". *)
Definition sort_ascending (l : list Z) : list Z :=
  fold_right insert_ascending [] l.

(** Modelled from the spec: the average of a window. *)
Definition mean (l : list Z) : Q :=
  (inject_Z (fold_right Z.add 0%Z l) / inject_Z (Z.of_nat (List.length l)))%Q.

(** Modelled from the spec: the median of a device's sample window (the
    RTT Tracker is not among the sources).  Section 4.3: the median over
    an even-length window is the mean of the two middle values after
    ascending sort; an empty window yields no data, not a number. *)
Definition median_of (window : list Z) : option Q :=
  let sorted := sort_ascending window in
  let n := List.length sorted in
  match n with
  | O => None
  | _ =>
      if Nat.even n
      then Some ((inject_Z (nth (n / 2 - 1) sorted 0%Z)
                  + inject_Z (nth (n / 2) sorted 0%Z)) / 2)%Q
      else Some (inject_Z (nth (n / 2) sorted 0%Z))
  end.

(** Modelled from the spec: [currentStats()] of the RTT Tracker (not
    among the sources), section 4.3: [{avg, median}] computed over the
    current window, "no data" ([None]) on an empty window. *)
Definition currentStats (window : list Z) : option Stats :=
  match median_of window with
  | Some m => Some (mkStats (mean window) m)
  | None => None
  end.

End RttTracker.

(** ** Definitions used to state the properties *)

(** A device whose state contains 'Online' (the predicate of the
    [find] of line 86). *)
Definition mentions_online (d : DeviceInfo.t) : bool :=
  JsString.includes "Online" (DeviceInfo.state d).

(** The platform under which the bootstrap reply first lists [id]. *)
Definition first_listed (id : string) (l : list (string * Platform))
    : option Platform :=
  option_map snd (find (fun e => id =? fst e) l).




(** *** Sample data for the worked instances *)

Definition sample_jid := "491701234567@s.whatsapp.net".

Definition sample_contact : ContactInfo.t :=
  ContactInfo.mk sample_jid "491701234567" "491701234567" [] [] 0%Z
    None None whatsapp.

Definition sample_state : Dashboard.t :=
  Dashboard.mk "" whatsapp [(sample_jid, sample_contact)] None false
    delete false "".

Definition device_offline : DeviceInfo.t :=
  DeviceInfo.mk "491701234567:1@s.whatsapp.net" "Offline" 820%Z 790%Z.

Definition device_online : DeviceInfo.t :=
  DeviceInfo.mk "491701234567:2@s.whatsapp.net" "Online" 140%Z 150%Z.

Definition sample_update : TrackerUpdate.t :=
  TrackerUpdate.mk (Some sample_jid) None (Some 2%Z)
    (Some [device_offline; device_online]) (Some 150%Z) (Some 300%Z).

(** A contact stored under the empty jid, which [contact-added]
    accepts, and a tracker-update that names it. *)
Definition empty_jid_state : Dashboard.t :=
  onContactAdded "" "491701234567" None (Dashboard.initial true).

Definition empty_jid_update : TrackerUpdate.t :=
  TrackerUpdate.mk (Some "") (Some (Some "available")) None None None None.

(** Two environments: one without Docker, one where Docker runs but the
    container can be neither inspected nor created. *)
Definition no_docker : InitSignal.env := fun _ => false.

Definition docker_without_container : InitSignal.env :=
  fun cmd => cmd =? "docker info".

(** An event that announces contacts announces none under the empty
    jid: a jid is a platform-qualified address. *)
Definition announces_no_empty_jid (e : Event) : Prop :=
  match e with
  | ContactAddedEvent jid _ _ => jid <> ""
  | TrackedContactsEvent contacts =>
      Forall (fun entry => fst entry <> "") contacts
  | _ => True
  end.


(** A chart point with its timestamp left out, and the state with the
    timestamp of every chart point left out. *)
Definition retime (p : TrackerData.t) : TrackerData.t :=
  TrackerData.mk (TrackerData.rtt p) (TrackerData.avg p)
    (TrackerData.median p) (TrackerData.threshold p) (TrackerData.state p)
    0%Z.


(** * Properties *)

(** ** Laws of the [Map] model *)

Module JsMapFacts.
Section WithValue.
Context {V : Type}.
Implicit Types (k : string) (v : V) (m : JsMap.t V).

Ltac case_key k k' :=
  destruct (String.eqb_spec k k') as [? | ?]; subst; simpl;
  rewrite ?String.eqb_refl; try congruence.

Lemma get_set_eq k v m : JsMap.get k (JsMap.set k v m) = Some v.
Proof.
  induction m as [| [k' v'] r IH]; simpl.
  - now rewrite String.eqb_refl.
  - case_key k k'. destruct (String.eqb_spec k k'); congruence.
Qed.

Lemma get_set_ne k k' v m :
  k <> k' -> JsMap.get k' (JsMap.set k v m) = JsMap.get k' m.
Proof.
  intros Hne. induction m as [| [k0 v0] r IH]; simpl.
  - destruct (String.eqb_spec k' k); congruence.
  - case_key k k0.
    + destruct (String.eqb_spec k' k0); congruence.
    + now rewrite IH.
Qed.

Lemma get_set k k' v m :
  JsMap.get k' (JsMap.set k v m)
  = if k' =? k then Some v else JsMap.get k' m.
Proof.
  destruct (String.eqb_spec k' k) as [-> | Hne].
  - apply get_set_eq.
  - apply get_set_ne. congruence.
Qed.


Lemma set_same k v m : JsMap.get k m = Some v -> JsMap.set k v m = m.
Proof.
  induction m as [| [k0 v0] r IH]; simpl; [discriminate |].
  case_key k k0. intros H. now rewrite IH.
Qed.

Lemma keys_set_present k v v0 m :
  JsMap.get k m = Some v0 -> JsMap.keys (JsMap.set k v m) = JsMap.keys m.
Proof.
  unfold JsMap.keys.
  induction m as [| [k0 v1] r IH]; simpl; [discriminate |].
  case_key k k0. intros H. now rewrite IH.
Qed.

Lemma set_absent k v m :
  JsMap.get k m = None -> JsMap.set k v m = (m ++ [(k, v)])%list.
Proof.
  induction m as [| [k0 v0] r IH]; simpl; [reflexivity |].
  case_key k k0. intros H. now rewrite IH.
Qed.

Lemma delete_absent k m : JsMap.get k m = None -> JsMap.delete k m = m.
Proof.
  induction m as [| [k0 v0] r IH]; simpl; [reflexivity |].
  case_key k k0. intros H. now rewrite IH.
Qed.

Lemma delete_set_absent k v m :
  JsMap.get k m = None -> JsMap.delete k (JsMap.set k v m) = m.
Proof.
  induction m as [| [k0 v0] r IH]; simpl.
  - now rewrite String.eqb_refl.
  - case_key k k0.
    destruct (String.eqb_spec k k0); [congruence |].
    intros H. now rewrite IH.
Qed.

Lemma get_delete k k' m :
  JsMap.get k' (JsMap.delete k m)
  = if k' =? k then None else JsMap.get k' m.
Proof.
  induction m as [| [k0 v0] r IH]; simpl.
  - now destruct (k' =? k).
  - case_key k k0.
    + rewrite IH. now destruct (k' =? k0).
    + rewrite IH. destruct (String.eqb_spec k' k0); subst.
      * destruct (String.eqb_spec k0 k); congruence.
      * reflexivity.
Qed.


Lemma get_None_not_In k m :
  JsMap.get k m = None <-> ~ In k (JsMap.keys m).
Proof.
  unfold JsMap.keys.
  induction m as [| [k0 v0] r IH]; simpl; [tauto |].
  case_key k k0.
  - split; [discriminate | tauto].
  - rewrite IH. intuition congruence.
Qed.

Lemma keys_set_incl k v m x :
  In x (JsMap.keys (JsMap.set k v m)) -> x = k \/ In x (JsMap.keys m).
Proof.
  unfold JsMap.keys.
  induction m as [| [k0 v0] r IH]; simpl; [intuition congruence |].
  case_key k k0; intuition.
Qed.

Lemma keys_nodup_set k v m :
  JsMap.keys_nodup m -> JsMap.keys_nodup (JsMap.set k v m).
Proof.
  unfold JsMap.keys_nodup, JsMap.keys.
  induction m as [| [k0 v0] r IH]; simpl.
  - intros _. repeat constructor. simpl. tauto.
  - intros H. inversion H as [| ? ? Hin Hr]; subst.
    case_key k k0.
    constructor; [| auto].
    intros Hc. apply keys_set_incl in Hc. destruct Hc; [congruence | auto].
Qed.

Lemma keys_delete_incl k m x :
  In x (JsMap.keys (JsMap.delete k m)) -> In x (JsMap.keys m).
Proof.
  unfold JsMap.keys.
  induction m as [| [k0 v0] r IH]; simpl; [tauto |].
  destruct (k =? k0); simpl; tauto.
Qed.

Lemma keys_nodup_delete k m :
  JsMap.keys_nodup m -> JsMap.keys_nodup (JsMap.delete k m).
Proof.
  unfold JsMap.keys_nodup, JsMap.keys.
  induction m as [| [k0 v0] r IH]; simpl; [trivial |].
  intros H. inversion H as [| ? ? Hin Hr]; subst.
  destruct (k =? k0); simpl; [auto |].
  constructor; [| auto].
  intros Hc. apply Hin. now apply (keys_delete_incl k).
Qed.

End WithValue.
End JsMapFacts.

(** ** The dashboard reducer *)

Lemma setContacts_id (s : Dashboard.t) :
  Dashboard.setContacts (fun prev => prev) s = s.
Proof. now destruct s. Qed.

Lemma contacts_setContacts f (s : Dashboard.t) :
  Dashboard.contacts (Dashboard.setContacts f s) = f (Dashboard.contacts s).
Proof. reflexivity. Qed.

(** *** No key is ever stored twice *)

Lemma trackedContacts_fold_keys_nodup l : forall next,
  JsMap.keys_nodup next ->
  JsMap.keys_nodup (fold_left trackedContacts_step l next).
Proof.
  induction l as [| [id p] l IH]; intros next H; cbn [fold_left];
    [exact H |].
  apply IH. unfold trackedContacts_step.
  destruct (negb (JsMap.has id next)); [| exact H].
  now apply JsMapFacts.keys_nodup_set.
Qed.

Lemma dispatch_keys_nodup now e s :
  JsMap.keys_nodup (Dashboard.contacts s) ->
  JsMap.keys_nodup (Dashboard.contacts (dispatch now e s)).
Proof.
  intros H. destruct e; simpl dispatch.
  - unfold onTrackerUpdate.
    destruct (negb (JsString.truthy (TrackerUpdate.jid update)));
      [exact H |].
    destruct (TrackerUpdate.jid update) as [j |]; [| exact H].
    rewrite contacts_setContacts. cbv zeta.
    destruct (JsMap.get j (Dashboard.contacts s)); [| exact H].
    now apply JsMapFacts.keys_nodup_set.
  - unfold onProfilePic. rewrite contacts_setContacts. cbv zeta.
    destruct (JsMap.get jid (Dashboard.contacts s)); [| exact H].
    now apply JsMapFacts.keys_nodup_set.
  - unfold onContactName. rewrite contacts_setContacts. cbv zeta.
    destruct (JsMap.get jid (Dashboard.contacts s)); [| exact H].
    now apply JsMapFacts.keys_nodup_set.
  - unfold onContactAdded. simpl. now apply JsMapFacts.keys_nodup_set.
  - unfold onContactRemoved. rewrite contacts_setContacts.
    now apply JsMapFacts.keys_nodup_delete.
  - exact H.
  - exact H.
  - unfold onTrackedContacts. rewrite contacts_setContacts.
    now apply trackedContacts_fold_keys_nodup.
Qed.

(** Every state the component can reach holds each jid at most once, as
    a [Map] does. *)
Lemma replay_keys_nodup events : forall s,
  JsMap.keys_nodup (Dashboard.contacts s) ->
  JsMap.keys_nodup (Dashboard.contacts (replay events s)).
Proof.
  unfold replay.
  induction events as [| [now e] events IH]; intros s H; cbn [fold_left];
    [exact H |].
  apply IH. now apply dispatch_keys_nodup.
Qed.

Lemma initial_keys_nodup b :
  JsMap.keys_nodup (Dashboard.contacts (Dashboard.initial b)).
Proof. constructor. Qed.

(** What [onTrackerUpdate] does to the contacts map once the [!jid]
    guard is passed. *)
Lemma onTrackerUpdate_contacts now update s j :
  TrackerUpdate.jid update = Some j -> j <> "" ->
  Dashboard.contacts (onTrackerUpdate now update s)
  = match JsMap.get j (Dashboard.contacts s) with
    | Some c => JsMap.set j (updatedContact now update c)
                  (Dashboard.contacts s)
    | None => Dashboard.contacts s
    end.
Proof.
  intros Hj Hne. unfold onTrackerUpdate. rewrite Hj. simpl.
  destruct (String.eqb_spec j ""); [contradiction | reflexivity].
Qed.

(** The fields [updatedContact] leaves alone and the ones it merges. *)
Lemma updatedContact_fields now update c :
  let c' := updatedContact now update c in
  ContactInfo.presence c'
  = match TrackerUpdate.presence update with
    | Some p => p
    | None => ContactInfo.presence c
    end
  /\ ContactInfo.deviceCount c'
     = match TrackerUpdate.deviceCount update with
       | Some n => n
       | None => ContactInfo.deviceCount c
       end
  /\ ContactInfo.devices c'
     = match TrackerUpdate.devices update with
       | Some ds => ds
       | None => ContactInfo.devices c
       end
  /\ ContactInfo.jid c' = ContactInfo.jid c
  /\ ContactInfo.displayNumber c' = ContactInfo.displayNumber c
  /\ ContactInfo.contactName c' = ContactInfo.contactName c
  /\ ContactInfo.profilePic c' = ContactInfo.profilePic c
  /\ ContactInfo.platform c' = ContactInfo.platform c.
Proof.
  unfold updatedContact.
  destruct (TrackerUpdate.presence update), (TrackerUpdate.deviceCount update),
    (TrackerUpdate.devices update), (newDataPoint now update);
    simpl; repeat split.
Qed.

(** The merge of a tracker-update into the entry of a non-empty jid that
    is in the map: the fields the event carries are taken from it, the
    others are kept, and nothing else in the map moves. *)
Lemma onTrackerUpdate_merges_fields
    (now : number) (update : TrackerUpdate.t) (s : Dashboard.t)
    (j : string) (c : ContactInfo.t) :
  TrackerUpdate.jid update = Some j ->
  j <> "" ->
  JsMap.get j (Dashboard.contacts s) = Some c ->
  let s' := onTrackerUpdate now update s in
  exists c',
    JsMap.get j (Dashboard.contacts s') = Some c'
    /\ ContactInfo.presence c'
       = match TrackerUpdate.presence update with
         | Some p => p
         | None => ContactInfo.presence c
         end
    /\ ContactInfo.deviceCount c'
       = match TrackerUpdate.deviceCount update with
         | Some n => n
         | None => ContactInfo.deviceCount c
         end
    /\ ContactInfo.devices c'
       = match TrackerUpdate.devices update with
         | Some ds => ds
         | None => ContactInfo.devices c
         end
    /\ ContactInfo.jid c' = ContactInfo.jid c
    /\ ContactInfo.displayNumber c' = ContactInfo.displayNumber c
    /\ ContactInfo.contactName c' = ContactInfo.contactName c
    /\ ContactInfo.profilePic c' = ContactInfo.profilePic c
    /\ ContactInfo.platform c' = ContactInfo.platform c
    /\ (forall k, k <> j ->
          JsMap.get k (Dashboard.contacts s')
          = JsMap.get k (Dashboard.contacts s))
    /\ JsMap.keys (Dashboard.contacts s') = JsMap.keys (Dashboard.contacts s).
Proof.
  intros Hj Hne Hc s'. subst s'.
  rewrite (onTrackerUpdate_contacts now update s j Hj Hne), Hc.
  exists (updatedContact now update c).
  split; [apply JsMapFacts.get_set_eq |].
  pose proof (updatedContact_fields now update c) as F. simpl in F.
  destruct F as (F1 & F2 & F3 & F4 & F5 & F6 & F7 & F8).
  repeat (split; [assumption |]).
  split.
  - intros k Hk. apply JsMapFacts.get_set_ne. congruence.
  - now apply JsMapFacts.keys_set_present with (v0 := c).
Qed.

(** Why the jid must not be empty: were a contact stored under the empty
    jid, the [!jid] guard would return before the merge of an event that
    names it. *)
Remark onTrackerUpdate_empty_jid_not_merged :
  exists c,
    JsMap.get "" (Dashboard.contacts empty_jid_state) = Some c
    /\ TrackerUpdate.jid empty_jid_update = Some ""
    /\ TrackerUpdate.presence empty_jid_update = Some (Some "available")
    /\ exists c',
         JsMap.get ""
           (Dashboard.contacts
              (onTrackerUpdate 1000%Z empty_jid_update empty_jid_state))
         = Some c'
         /\ ContactInfo.presence c' = None
         /\ ContactInfo.presence c' <> Some "available".
Proof.
  eexists. split; [reflexivity |]. repeat (split; [reflexivity |]).
  eexists. split; [reflexivity |]. split; [reflexivity | discriminate].
Qed.

(** C9: a tracker-update whose jid is missing (or empty), or is not a
    key of the contacts map, leaves the contacts map, and with it the
    whole state, unchanged: no entry is created and none is modified. *)
Theorem onTrackerUpdate_unknown_jid
    (now : number) (update : TrackerUpdate.t) (s : Dashboard.t) :
  (TrackerUpdate.jid update = None
   \/ TrackerUpdate.jid update = Some ""
   \/ exists j, TrackerUpdate.jid update = Some j
                /\ JsMap.get j (Dashboard.contacts s) = None) ->
  onTrackerUpdate now update s = s
  /\ Dashboard.contacts (onTrackerUpdate now update s) = Dashboard.contacts s.
Proof.
  intros H.
  assert (E : onTrackerUpdate now update s = s).
  { unfold onTrackerUpdate.
    destruct H as [-> | [-> | (j & -> & Hj)]]; simpl;
      [reflexivity | reflexivity |].
    destruct (j =? ""); simpl; [reflexivity |].
    rewrite <- (setContacts_id s) at 2.
    unfold Dashboard.setContacts. now rewrite Hj. }
  now rewrite E.
Qed.

Lemma onTrackerUpdate_unknown_jid_witness :
  (onTrackerUpdate 1000%Z
     (TrackerUpdate.mk None (Some None) (Some 0%Z) (Some []) None None)
     sample_state = sample_state)
  /\ (JsMap.get "signal:+15550100" (Dashboard.contacts sample_state) = None
      /\ Dashboard.contacts
           (onTrackerUpdate 1000%Z
              (TrackerUpdate.mk (Some "signal:+15550100") None (Some 1%Z)
                 (Some [device_online]) (Some 150%Z) (Some 300%Z))
              sample_state)
         = Dashboard.contacts sample_state).
Proof.
  split.
  - apply onTrackerUpdate_unknown_jid. left. reflexivity.
  - split; [reflexivity |].
    apply onTrackerUpdate_unknown_jid. right. right.
    exists "signal:+15550100". split; reflexivity.
Defined.

(** C6: a contact-name or profile-pic event for a jid that is not in the
    contacts map leaves the state unchanged; for a jid that is in the map
    the entry becomes the old one with only contactName (respectively
    profilePic) set to the event's value, every other key keeps its
    entry, and the order of the map is unchanged. *)
Theorem onContactName_onProfilePic_guarded
    (jid name : string) (url : option string) (s : Dashboard.t) :
  (JsMap.get jid (Dashboard.contacts s) = None ->
     onContactName jid name s = s /\ onProfilePic jid url s = s)
  /\ (forall c, JsMap.get jid (Dashboard.contacts s) = Some c ->
        let named := Dashboard.contacts (onContactName jid name s) in
        let pictured := Dashboard.contacts (onProfilePic jid url s) in
        JsMap.get jid named
        = Some (ContactInfo.mk (ContactInfo.jid c) (ContactInfo.displayNumber c)
                  name (ContactInfo.data c) (ContactInfo.devices c)
                  (ContactInfo.deviceCount c) (ContactInfo.presence c)
                  (ContactInfo.profilePic c) (ContactInfo.platform c))
        /\ JsMap.get jid pictured
           = Some (ContactInfo.mk (ContactInfo.jid c)
                     (ContactInfo.displayNumber c) (ContactInfo.contactName c)
                     (ContactInfo.data c) (ContactInfo.devices c)
                     (ContactInfo.deviceCount c) (ContactInfo.presence c)
                     url (ContactInfo.platform c))
        /\ (forall k, k <> jid ->
              JsMap.get k named = JsMap.get k (Dashboard.contacts s)
              /\ JsMap.get k pictured = JsMap.get k (Dashboard.contacts s))
        /\ JsMap.keys named = JsMap.keys (Dashboard.contacts s)
        /\ JsMap.keys pictured = JsMap.keys (Dashboard.contacts s)).
Proof.
  split.
  - intros Hnone. unfold onContactName, onProfilePic.
    split; rewrite <- (setContacts_id s) at 2;
      unfold Dashboard.setContacts; now rewrite Hnone.
  - intros c Hc named pictured. subst named pictured.
    unfold onContactName, onProfilePic.
    rewrite !contacts_setContacts. cbv zeta. rewrite Hc.
    rewrite !JsMapFacts.get_set_eq.
    repeat split.
    + apply JsMapFacts.get_set_ne. congruence.
    + apply JsMapFacts.get_set_ne. congruence.
    + now apply JsMapFacts.keys_set_present with (v0 := c).
    + now apply JsMapFacts.keys_set_present with (v0 := c).
Qed.

Lemma onContactName_onProfilePic_guarded_witness :
  (onContactName "signal:+15550100" "Bob" sample_state = sample_state
   /\ onProfilePic "signal:+15550100" (Some "https://pps.example/bob.jpg")
        sample_state = sample_state)
  /\ JsMap.get sample_jid
       (Dashboard.contacts (onContactName sample_jid "Alice" sample_state))
     = Some (ContactInfo.mk sample_jid "491701234567" "Alice" [] [] 0%Z
               None None whatsapp)
  /\ JsMap.get sample_jid
       (Dashboard.contacts (onProfilePic sample_jid None sample_state))
     = Some sample_contact.
Proof.
  split.
  - apply (onContactName_onProfilePic_guarded "signal:+15550100" "Bob"
             (Some "https://pps.example/bob.jpg") sample_state).
    reflexivity.
  - pose proof (proj2 (onContactName_onProfilePic_guarded sample_jid "Alice"
                         None sample_state) sample_contact eq_refl) as H.
    cbv zeta in H. destruct H as (H1 & H2 & _). split; assumption.
Defined.

(** C3: for a jid that is not in the contacts map, contact-added followed
    by contact-removed gives back the contacts map as it was before the
    add, entries and order. *)
Theorem onContactAdded_then_onContactRemoved
    (jid number : string) (platform : option Platform) (s : Dashboard.t) :
  JsMap.get jid (Dashboard.contacts s) = None ->
  Dashboard.contacts
    (onContactRemoved jid (onContactAdded jid number platform s))
  = Dashboard.contacts s.
Proof.
  intros Hnone. unfold onContactRemoved, onContactAdded. simpl.
  now apply JsMapFacts.delete_set_absent.
Qed.

Lemma onContactAdded_then_onContactRemoved_witness :
  JsMap.get "signal:+15550100" (Dashboard.contacts sample_state) = None
  /\ Dashboard.contacts
       (onContactRemoved "signal:+15550100"
          (onContactAdded "signal:+15550100" "+15550100" (Some signal)
             sample_state))
     = Dashboard.contacts sample_state.
Proof.
  split; [reflexivity |].
  apply onContactAdded_then_onContactRemoved. reflexivity.
Defined.

(** C7: an error event never changes the contacts map, whether or not it
    carries the jid of a tracked contact: neither the handler nor the
    timer it arms, in whatever later state it fires, removes or modifies
    a contact. *)
Theorem onError_keeps_contacts
    (now : number) (jid : option string) (message : string)
    (s later : Dashboard.t) :
  Dashboard.contacts (onError jid message s) = Dashboard.contacts s
  /\ Dashboard.contacts (dispatch now (ErrorEvent jid message) s)
     = Dashboard.contacts s
  /\ Dashboard.contacts (snd onError_timeout later)
     = Dashboard.contacts later.
Proof. repeat split. Qed.

(** *** The contact-level state of a chart point *)

Lemma includes_nonempty needle s :
  needle <> "" -> JsString.includes needle s = true -> s <> "".
Proof.
  intros Hn H ->. unfold JsString.includes in H. simpl in H.
  destruct needle; [congruence | discriminate].
Qed.

(** The [||] of line 86 never falls through on a device that was found:
    a state that contains 'Online' is not the empty string. *)
Lemma or_else_found_state (devices : list DeviceInfo.t) (fallback : string) :
  JsString.or_else
    (option_map DeviceInfo.state (find mentions_online devices)) fallback
  = match find mentions_online devices with
    | Some d => DeviceInfo.state d
    | None => fallback
    end.
Proof.
  destruct (find mentions_online devices) as [d |] eqn:F; simpl;
    [| reflexivity].
  apply find_some in F. destruct F as [_ F]. unfold mentions_online in F.
  apply includes_nonempty in F; [| discriminate].
  destruct (String.eqb_spec (DeviceInfo.state d) ""); congruence.
Qed.

Lemma find_online_among_offline_online (devices : list DeviceInfo.t) :
  (forall d, In d devices ->
     DeviceInfo.state d = "Offline" \/ DeviceInfo.state d = "Online") ->
  (exists d, In d devices /\ DeviceInfo.state d = "Online") ->
  exists d, find mentions_online devices = Some d
            /\ DeviceInfo.state d = "Online".
Proof.
  intros Hall (d1 & Hin & Hon).
  destruct (find mentions_online devices) as [d |] eqn:F.
  - exists d. split; [reflexivity |].
    apply find_some in F. destruct F as [Hd F].
    destruct (Hall d Hd) as [E | E]; [| exact E].
    unfold mentions_online in F. rewrite E in F. discriminate.
  - exfalso. apply (find_none _ _ F) in Hin.
    unfold mentions_online in Hin. rewrite Hon in Hin. discriminate.
Qed.

Lemma newDataPoint_carried now update median d0 ds :
  TrackerUpdate.median update = Some median ->
  TrackerUpdate.devices update = Some (d0 :: ds) ->
  newDataPoint now update
  = Some (TrackerData.mk (DeviceInfo.rtt d0) (DeviceInfo.avg d0) median
            (TrackerUpdate.threshold update)
            match find (fun d => JsString.includes "Online"
                                   (DeviceInfo.state d)) (d0 :: ds) with
            | Some d => DeviceInfo.state d
            | None => DeviceInfo.state d0
            end
            now).
Proof.
  intros Hm Hd. unfold newDataPoint. rewrite Hm, Hd.
  pose proof (or_else_found_state (d0 :: ds) (DeviceInfo.state d0)) as Hor.
  unfold mentions_online in Hor. cbv beta iota. now rewrite Hor.
Qed.

(** C5: for a tracker-update that carries a median and a non-empty
    devices list and names a tracked contact, one chart point is appended
    to the contact's data; its state is the state of the first device
    whose state contains 'Online' when there is one, and the state of the
    first listed device otherwise.  In particular, when every device is
    Offline or Online and at least one is Online, the point records
    Online. *)
Theorem chart_point_state_prefers_online
    (now : number) (update : TrackerUpdate.t) (s : Dashboard.t)
    (j : string) (c : ContactInfo.t)
    (median : number) (d0 : DeviceInfo.t) (ds : list DeviceInfo.t) :
  TrackerUpdate.jid update = Some j ->
  j <> "" ->
  JsMap.get j (Dashboard.contacts s) = Some c ->
  TrackerUpdate.median update = Some median ->
  TrackerUpdate.devices update = Some (d0 :: ds) ->
  exists c' point,
    JsMap.get j (Dashboard.contacts (onTrackerUpdate now update s)) = Some c'
    /\ ContactInfo.data c' = (ContactInfo.data c ++ [point])%list
    /\ TrackerData.median point = median
    /\ TrackerData.state point
       = match find (fun d => JsString.includes "Online" (DeviceInfo.state d))
                 (d0 :: ds) with
         | Some d => DeviceInfo.state d
         | None => DeviceInfo.state d0
         end
    /\ ((forall d, In d (d0 :: ds) ->
           DeviceInfo.state d = "Offline" \/ DeviceInfo.state d = "Online") ->
        (exists d, In d (d0 :: ds) /\ DeviceInfo.state d = "Online") ->
        TrackerData.state point = "Online").
Proof.
  intros Hj Hne Hc Hm Hd.
  rewrite (onTrackerUpdate_contacts now update s j Hj Hne), Hc.
  rewrite JsMapFacts.get_set_eq.
  pose proof (newDataPoint_carried now update median d0 ds Hm Hd) as Hp.
  set (point := TrackerData.mk _ _ _ _ _ _) in Hp.
  exists (updatedContact now update c), point.
  split; [reflexivity |].
  split.
  { unfold updatedContact. rewrite Hp, Hd.
    destruct (TrackerUpdate.presence update),
      (TrackerUpdate.deviceCount update); reflexivity. }
  split; [reflexivity |].
  split; [reflexivity |].
  intros Hall Hex. subst point. cbn [TrackerData.state].
  destruct (find_online_among_offline_online (d0 :: ds) Hall Hex)
    as (d & Hf & Hd').
  unfold mentions_online in Hf. now rewrite Hf.
Qed.

Lemma chart_point_state_prefers_online_witness :
  exists c' point,
    JsMap.get sample_jid
      (Dashboard.contacts (onTrackerUpdate 1000%Z sample_update sample_state))
    = Some c'
    /\ ContactInfo.data c' = [point]
    /\ TrackerData.state point = "Online".
Proof.
  destruct (chart_point_state_prefers_online 1000%Z sample_update
              sample_state sample_jid sample_contact 150%Z
              device_offline [device_online]
              eq_refl ltac:(discriminate) eq_refl eq_refl eq_refl)
    as (c' & point & H1 & H2 & _ & _ & H5).
  exists c', point. split; [exact H1 |]. split; [exact H2 |].
  apply H5.
  - intros d [<- | [<- | []]]; [left | right]; reflexivity.
  - exists device_online. split; [right; left |]; reflexivity.
Defined.

(** *** Entries created by [onContactAdded] and [onTrackedContacts] *)

Lemma has_get {V} (k : string) (m : JsMap.t V) :
  JsMap.has k m = match JsMap.get k m with Some _ => true | None => false end.
Proof. reflexivity. Qed.

Lemma trackedContacts_step_get next id' platform id :
  JsMap.get id (trackedContacts_step next (id', platform))
  = match JsMap.get id next with
    | Some c => Some c
    | None => if id =? id' then Some (bootstrapEntry id platform) else None
    end.
Proof.
  unfold trackedContacts_step. rewrite has_get.
  destruct (JsMap.get id' next) as [c' |] eqn:H'; simpl.
  - destruct (JsMap.get id next) eqn:H; [reflexivity |].
    destruct (String.eqb_spec id id'); congruence.
  - rewrite JsMapFacts.get_set.
    destruct (String.eqb_spec id id') as [-> | Hne].
    + now rewrite H'.
    + now destruct (JsMap.get id next).
Qed.

(** The lookup of any id after the whole [forEach]. *)
Lemma trackedContacts_fold_get l : forall next id,
  JsMap.get id (fold_left trackedContacts_step l next)
  = match JsMap.get id next with
    | Some c => Some c
    | None => option_map (bootstrapEntry id) (first_listed id l)
    end.
Proof.
  induction l as [| [id' p] l IH]; intros next id; cbn [fold_left].
  - now destruct (JsMap.get id next).
  - rewrite IH, trackedContacts_step_get. unfold first_listed. simpl.
    destruct (JsMap.get id next); [reflexivity |].
    now destruct (id =? id').
Qed.

(** Existing entries keep their place; new ones go to the end. *)
Lemma trackedContacts_fold_appends l : forall next,
  exists added, fold_left trackedContacts_step l next = (next ++ added)%list.
Proof.
  induction l as [| [id' p] l IH]; intros next; cbn [fold_left].
  - exists []. now rewrite app_nil_r.
  - destruct (IH (trackedContacts_step next (id', p))) as [added ->].
    unfold trackedContacts_step. rewrite has_get.
    destruct (JsMap.get id' next) eqn:H; simpl.
    + now exists added.
    + rewrite (JsMapFacts.set_absent _ _ _ H), <- app_assoc. eauto.
Qed.

Lemma first_listed_of_listed id (l : list (string * Platform)) :
  In id (map fst l) <-> exists p, first_listed id l = Some p.
Proof.
  unfold first_listed. split.
  - intros Hin. apply in_map_iff in Hin. destruct Hin as ([i p] & <- & Hin).
    destruct (find (fun e => fst (i, p) =? fst e) l) as [[i' p'] |] eqn:F.
    + now exists p'.
    + apply (find_none _ _ F) in Hin. simpl in Hin.
      now rewrite String.eqb_refl in Hin.
  - intros [p H].
    destruct (find (fun e => id =? fst e) l) as [[i' p'] |] eqn:F;
      [| discriminate].
    apply find_some in F. destruct F as [Hin Heq]. simpl in Heq.
    apply String.eqb_eq in Heq. subst i'.
    apply in_map_iff. now exists (id, p').
Qed.

(** C8: the entry made by a contact-added event, and the entry the
    tracked-contacts handler makes for every listed id that is not yet
    in the map, has contactName equal to its display number, no devices,
    deviceCount 0, presence null and profilePic null; the handler makes
    entries for listed ids only, and leaves every entry that is already
    in the map as it is and where it is. *)
Theorem created_entries_start_empty
    (jid number : string) (platform : option Platform)
    (l : list (string * Platform)) (s : Dashboard.t) (id : string) :
  (exists c,
     JsMap.get jid (Dashboard.contacts (onContactAdded jid number platform s))
     = Some c
     /\ ContactInfo.displayNumber c = number
     /\ ContactInfo.contactName c = ContactInfo.displayNumber c
     /\ ContactInfo.devices c = []
     /\ ContactInfo.deviceCount c = 0%Z
     /\ ContactInfo.presence c = None
     /\ ContactInfo.profilePic c = None)
  /\ (JsMap.get id (Dashboard.contacts s) = None ->
      In id (map fst l) ->
      exists c,
        JsMap.get id (Dashboard.contacts (onTrackedContacts l s)) = Some c
        /\ ContactInfo.jid c = id
        /\ ContactInfo.contactName c = ContactInfo.displayNumber c
        /\ ContactInfo.devices c = []
        /\ ContactInfo.deviceCount c = 0%Z
        /\ ContactInfo.presence c = None
        /\ ContactInfo.profilePic c = None)
  /\ (forall c,
        JsMap.get id (Dashboard.contacts s) = None ->
        JsMap.get id (Dashboard.contacts (onTrackedContacts l s)) = Some c ->
        In id (map fst l)
        /\ ContactInfo.contactName c = ContactInfo.displayNumber c
        /\ ContactInfo.devices c = []
        /\ ContactInfo.deviceCount c = 0%Z
        /\ ContactInfo.presence c = None
        /\ ContactInfo.profilePic c = None)
  /\ (forall c,
        JsMap.get id (Dashboard.contacts s) = Some c ->
        JsMap.get id (Dashboard.contacts (onTrackedContacts l s)) = Some c)
  /\ (exists added,
        Dashboard.contacts (onTrackedContacts l s)
        = (Dashboard.contacts s ++ added)%list).
Proof.
  split; [| split; [| split; [| split]]].
  - eexists. split.
    + unfold onContactAdded. simpl. apply JsMapFacts.get_set_eq.
    + repeat split.
  - intros Hnone Hin. unfold onTrackedContacts.
    rewrite contacts_setContacts. cbv zeta.
    rewrite trackedContacts_fold_get, Hnone.
    apply first_listed_of_listed in Hin. destruct Hin as [p ->].
    exists (bootstrapEntry id p). repeat split.
  - intros c Hnone. unfold onTrackedContacts.
    rewrite contacts_setContacts. cbv zeta.
    rewrite trackedContacts_fold_get, Hnone.
    destruct (first_listed id l) as [p |] eqn:F; simpl; [| discriminate].
    intros [= <-]. split; [| repeat split].
    apply first_listed_of_listed. now exists p.
  - intros c Hc. unfold onTrackedContacts.
    rewrite contacts_setContacts. cbv zeta.
    now rewrite trackedContacts_fold_get, Hc.
  - apply trackedContacts_fold_appends.
Qed.

Lemma created_entries_start_empty_witness :
  (exists c,
     JsMap.get "signal:+15550100"
       (Dashboard.contacts
          (onTrackedContacts
             [(sample_jid, whatsapp); ("signal:+15550100", signal)]
             (onContactName sample_jid "Alice" sample_state)))
     = Some c
     /\ ContactInfo.jid c = "signal:+15550100"
     /\ ContactInfo.contactName c = ContactInfo.displayNumber c
     /\ ContactInfo.devices c = []
     /\ ContactInfo.deviceCount c = 0%Z
     /\ ContactInfo.presence c = None
     /\ ContactInfo.profilePic c = None)
  /\ JsMap.get sample_jid
       (Dashboard.contacts
          (onTrackedContacts
             [(sample_jid, whatsapp); ("signal:+15550100", signal)]
             (onContactName sample_jid "Alice" sample_state)))
     = Some (ContactInfo.mk sample_jid "491701234567" "Alice" [] [] 0%Z
               None None whatsapp).
Proof.
  split.
  - apply (created_entries_start_empty sample_jid "491701234567" None
             [(sample_jid, whatsapp); ("signal:+15550100", signal)]
             (onContactName sample_jid "Alice" sample_state)
             "signal:+15550100").
    + reflexivity.
    + simpl. right. left. reflexivity.
  - apply (created_entries_start_empty sample_jid "491701234567" None
             [(sample_jid, whatsapp); ("signal:+15550100", signal)]
             (onContactName sample_jid "Alice" sample_state) sample_jid).
    reflexivity.
Defined.

(** The entry the reply makes in this instance. *)
Example onTrackedContacts_creates_signal_entry :
  JsMap.get "signal:+15550100"
    (Dashboard.contacts
       (onTrackedContacts
          [(sample_jid, whatsapp); ("signal:+15550100", signal)]
          sample_state))
  = Some (ContactInfo.mk "signal:+15550100" "+15550100" "+15550100" [] []
            0%Z None None signal).
Proof. reflexivity. Qed.

Example displayNumber_of_whatsapp :
  displayNumber_of "491701234567@s.whatsapp.net" whatsapp = "491701234567".
Proof. reflexivity. Qed.

Example displayNumber_of_signal :
  displayNumber_of "signal:+15550100" signal = "+15550100".
Proof. reflexivity. Qed.

(** *** Applying an event twice *)





Lemma updatedContact_data now update c :
  ContactInfo.data (updatedContact now update c)
  = match newDataPoint now update with
    | Some p => (ContactInfo.data c ++ [p])%list
    | None => ContactInfo.data c
    end.
Proof.
  unfold updatedContact.
  destruct (newDataPoint now update), (TrackerUpdate.presence update),
    (TrackerUpdate.deviceCount update), (TrackerUpdate.devices update);
    reflexivity.
Qed.

Lemma setContacts_ext f g (s : Dashboard.t) :
  f (Dashboard.contacts s) = g (Dashboard.contacts s) ->
  Dashboard.setContacts f s = Dashboard.setContacts g s.
Proof. unfold Dashboard.setContacts. now intros ->. Qed.

Lemma setContacts_setContacts f g (s : Dashboard.t) :
  Dashboard.setContacts g (Dashboard.setContacts f s)
  = Dashboard.setContacts (fun m => g (f m)) s.
Proof. reflexivity. Qed.















(** ** The bootstrap script *)

Section InitSignalFacts.
Import InitSignal.
Variable hostVolPath : string.
Variable e : env.

(** The exit status and the commands run, by the outcome of each
    command. *)
Lemma run_exit_status :
  exit_status (fst (run hostVolPath e))
  = if e docker_info
    then if e docker_inspect && e docker_start then 0%Z
         else if e (docker_run hostVolPath) then 0%Z else 1%Z
    else 0%Z.
Proof.
  unfold run, main, try_catch, bind, execSync, console_log, console_error,
    process_exit.
  destruct (e docker_info), (e docker_inspect), (e docker_start),
    (e (docker_run hostVolPath)); reflexivity.
Qed.

Lemma run_commands :
  commands (snd (run hostVolPath e))
  = if e docker_info
    then if e docker_inspect
         then if e docker_start
              then [docker_info; docker_inspect; docker_start]
              else [docker_info; docker_inspect; docker_start;
                    docker_run hostVolPath]
         else [docker_info; docker_inspect; docker_run hostVolPath]
    else [docker_info].
Proof.
  unfold run, main, try_catch, bind, execSync, console_log, console_error,
    process_exit.
  destruct (e docker_info), (e docker_inspect), (e docker_start),
    (e (docker_run hostVolPath)); reflexivity.
Qed.

Lemma run_docker_unavailable :
  e docker_info = false ->
  fst (run hostVolPath e) = Exit 0.
Proof.
  unfold run, main, try_catch, bind, execSync, console_log, console_error,
    process_exit.
  now intros ->.
Qed.

End InitSignalFacts.

Example run_without_docker :
  InitSignal.run "/root/.local/share/signal-api" no_docker
  = (InitSignal.Exit 0,
     [InitSignal.Exec "docker info";
      InitSignal.Log "ℹ️  Docker is not available in this environment.";
      InitSignal.Log "   Signal messaging will be disabled, but WhatsApp will work normally.";
      InitSignal.Log "   To use Signal, run this locally with Docker installed."]).
Proof. reflexivity. Qed.

(** C10: when [docker info] fails the script ends through
    [process.exit(0)] having run no other command; it ends with status 1
    exactly when Docker is available and the create command
    ([docker run]), reached because the inspect or the start failed,
    fails as well. *)
Theorem init_signal_exit_status
    (hostVolPath : string) (e : InitSignal.env) :
  let result := InitSignal.run hostVolPath e in
  (e InitSignal.docker_info = false ->
     fst result = InitSignal.Exit 0
     /\ InitSignal.exit_status (fst result) = 0%Z
     /\ InitSignal.commands (snd result) = [InitSignal.docker_info])
  /\ (InitSignal.exit_status (fst result) = 1%Z <->
        e InitSignal.docker_info = true
        /\ (e InitSignal.docker_inspect = false
            \/ e InitSignal.docker_start = false)
        /\ e (InitSignal.docker_run hostVolPath) = false)
  /\ (InitSignal.exit_status (fst result) = 1%Z ->
        In (InitSignal.docker_run hostVolPath)
          (InitSignal.commands (snd result)))
  /\ (InitSignal.exit_status (fst result) = 0%Z
      \/ InitSignal.exit_status (fst result) = 1%Z).
Proof.
  cbv zeta. rewrite run_exit_status, run_commands.
  split; [| split; [| split]].
  - intros H. split; [now apply run_docker_unavailable |].
    now rewrite H.
  - destruct (e InitSignal.docker_info), (e InitSignal.docker_inspect),
      (e InitSignal.docker_start), (e (InitSignal.docker_run hostVolPath));
      simpl; intuition discriminate.
  - destruct (e InitSignal.docker_info), (e InitSignal.docker_inspect),
      (e InitSignal.docker_start), (e (InitSignal.docker_run hostVolPath));
      cbn [andb]; intros H; try discriminate H; cbn [In]; tauto.
  - destruct (e InitSignal.docker_info), (e InitSignal.docker_inspect),
      (e InitSignal.docker_start), (e (InitSignal.docker_run hostVolPath));
      simpl; tauto.
Qed.

Lemma init_signal_exit_status_witness :
  (fst (InitSignal.run "/root/.local/share/signal-api" no_docker)
   = InitSignal.Exit 0
   /\ InitSignal.exit_status
        (fst (InitSignal.run "/root/.local/share/signal-api" no_docker))
      = 0%Z
   /\ InitSignal.commands
        (snd (InitSignal.run "/root/.local/share/signal-api" no_docker))
      = ["docker info"])
  /\ InitSignal.exit_status
       (fst (InitSignal.run "/root/.local/share/signal-api"
               docker_without_container))
     = 1%Z.
Proof.
  split.
  - apply (init_signal_exit_status "/root/.local/share/signal-api"
             no_docker).
    reflexivity.
  - apply (init_signal_exit_status "/root/.local/share/signal-api"
             docker_without_container).
    split; [reflexivity |]. split; [left |]; reflexivity.
Defined.

(** The sort of the model is a sort: its result is ascending and holds
    the samples of the window. *)
Lemma insert_ascending_perm x l :
  Permutation (x :: l) (RttTracker.insert_ascending x l).
Proof.
  induction l as [| y r IH]; simpl; [reflexivity |].
  destruct (x <=? y)%Z; [reflexivity |].
  rewrite perm_swap. now constructor.
Qed.

Lemma sort_ascending_perm l : Permutation l (RttTracker.sort_ascending l).
Proof.
  induction l as [| x l IH]; simpl; [constructor |].
  rewrite <- insert_ascending_perm. now constructor.
Qed.

Lemma insert_ascending_sorted x l :
  Sorted Z.le l -> Sorted Z.le (RttTracker.insert_ascending x l).
Proof.
  induction l as [| y r IH]; simpl; intros H.
  - repeat constructor.
  - destruct (Z.leb_spec x y) as [Hle | Hgt].
    + constructor; [exact H |]. now constructor.
    + inversion H as [| ? ? Hr Hhd]; subst.
      constructor; [now apply IH |].
      destruct r as [| z r']; simpl.
      * constructor. lia.
      * destruct (x <=? z)%Z; constructor; [lia |].
        now inversion Hhd.
Qed.

Lemma sort_ascending_sorted l : Sorted Z.le (RttTracker.sort_ascending l).
Proof.
  induction l as [| x l IH]; simpl; [constructor |].
  now apply insert_ascending_sorted.
Qed.

(** C4: over the window [10, 20, 30, 40] [currentStats] reports the
    median 25, the mean of the two middle values of the sorted window;
    over a window of one sample it reports that sample (5 for [5]); over
    the empty window it reports no data, and in particular not the
    number 0. *)
Theorem currentStats_median_examples :
  (exists st, RttTracker.currentStats [10; 20; 30; 40]%Z = Some st
              /\ (RttTracker.median st == 25)%Q)
  /\ (exists st, RttTracker.currentStats [40; 10; 30; 20]%Z = Some st
                 /\ (RttTracker.median st == (20 + 30) / 2)%Q)
  /\ (exists st, RttTracker.currentStats [5]%Z = Some st
                 /\ (RttTracker.median st == 5)%Q)
  /\ (forall x, exists st, RttTracker.currentStats [x] = Some st
                           /\ RttTracker.median st = inject_Z x)
  /\ RttTracker.currentStats [] = None
  /\ RttTracker.currentStats [] <> Some (RttTracker.mkStats 0 0).
Proof.
  split; [| split; [| split; [| split; [| split]]]].
  - eexists. split; reflexivity.
  - eexists. split; reflexivity.
  - eexists. split; reflexivity.
  - intros x. eexists. split; reflexivity.
  - reflexivity.
  - discriminate.
Qed.

(** * Further properties of the component *)

(** ** Entries of the [Map] model *)

Module JsMapEntries.
Section WithValue.
Context {V : Type}.
Implicit Types (k : string) (v : V) (m : JsMap.t V).

Lemma get_In k v m : JsMap.get k m = Some v -> In (k, v) m.
Proof.
  induction m as [| [k0 v0] r IH]; simpl; [discriminate |].
  destruct (String.eqb_spec k k0) as [-> | Hne].
  - intros [= ->]. now left.
  - intros H. right. now apply IH.
Qed.

Lemma In_set k v m x :
  In x (JsMap.set k v m) -> x = (k, v) \/ In x m.
Proof.
  induction m as [| [k0 v0] r IH]; simpl.
  - intros [<- | []]. now left.
  - destruct (k =? k0); simpl.
    + intros [<- | H]; [now left | right; now right].
    + intros [<- | H]; [right; now left |].
      destruct (IH H); [now left | right; now right].
Qed.

Lemma In_delete k m x :
  In x (JsMap.delete k m) <-> In x m /\ fst x <> k.
Proof.
  induction m as [| [k0 v0] r IH]; simpl; [tauto |].
  destruct (String.eqb_spec k k0) as [-> | Hne]; simpl; rewrite IH.
  - split; [tauto |]. intros [[<- | H] Hx]; [now elim Hx | tauto].
  - split.
    + intros [<- | H]; [split; [now left | simpl; congruence] | tauto].
    + tauto.
Qed.

Lemma keys_delete k m :
  JsMap.keys (JsMap.delete k m)
  = filter (fun k' => negb (k =? k')) (JsMap.keys m).
Proof.
  unfold JsMap.keys.
  induction m as [| [k0 v0] r IH]; simpl; [reflexivity |].
  destruct (k =? k0); simpl; now rewrite IH.
Qed.

Lemma keys_set k v m :
  JsMap.keys (JsMap.set k v m)
  = match JsMap.get k m with
    | Some _ => JsMap.keys m
    | None => (JsMap.keys m ++ [k])%list
    end.
Proof.
  unfold JsMap.keys.
  induction m as [| [k0 v0] r IH]; simpl; [reflexivity |].
  destruct (String.eqb_spec k k0) as [-> | Hne]; simpl; [reflexivity |].
  rewrite IH. now destruct (JsMap.get k r).
Qed.




End WithValue.
End JsMapEntries.

(** ** Where the entries of the map come from *)

Lemma trackedContacts_fold_origin l : forall next k c,
  In (k, c) (fold_left trackedContacts_step l next) ->
  In (k, c) next \/ exists p, c = bootstrapEntry k p.
Proof.
  induction l as [| [id p] l IH]; intros next k c; cbn [fold_left];
    [now left |].
  intros H. apply IH in H. destruct H as [H | H]; [| now right].
  unfold trackedContacts_step in H.
  destruct (negb (JsMap.has id next)); [| now left].
  apply JsMapEntries.In_set in H. destruct H as [[= -> ->] | H];
    [right; now exists p | now left].
Qed.

(** After any event, an entry of the map is an entry that was there, an
    entry that was there with the event merged into it, or a new entry
    made for the key it is stored under. *)
Lemma dispatch_entry_origin now e s k c' :
  In (k, c') (Dashboard.contacts (dispatch now e s)) ->
  In (k, c') (Dashboard.contacts s)
  \/ (exists c, In (k, c) (Dashboard.contacts s)
                /\ ((exists update, c' = updatedContact now update c)
                    \/ (exists url, c' = ContactInfo.with_profilePic url c)
                    \/ (exists name, c' = ContactInfo.with_contactName name c)))
  \/ (exists number p,
        c' = ContactInfo.mk k number number [] [] 0%Z None None p).
Proof.
  destruct e as [update | jid url | jid name | jid num platform | jid
                | jid message | method | l]; simpl dispatch.
  - unfold onTrackerUpdate.
    destruct (negb (JsString.truthy (TrackerUpdate.jid update)));
      [now left |].
    destruct (TrackerUpdate.jid update) as [j |]; [| now left].
    rewrite contacts_setContacts. cbv zeta.
    destruct (JsMap.get j (Dashboard.contacts s)) as [c |] eqn:Hc;
      [| now left].
    intros H. apply JsMapEntries.In_set in H.
    destruct H as [[= -> ->] | H]; [| now left].
    right. left. exists c. split; [now apply JsMapEntries.get_In |].
    left. now exists update.
  - unfold onProfilePic. rewrite contacts_setContacts. cbv zeta.
    destruct (JsMap.get jid (Dashboard.contacts s)) as [c |] eqn:Hc;
      [| now left].
    intros H. apply JsMapEntries.In_set in H.
    destruct H as [[= -> ->] | H]; [| now left].
    right. left. exists c. split; [now apply JsMapEntries.get_In |].
    right. left. now exists url.
  - unfold onContactName. rewrite contacts_setContacts. cbv zeta.
    destruct (JsMap.get jid (Dashboard.contacts s)) as [c |] eqn:Hc;
      [| now left].
    intros H. apply JsMapEntries.In_set in H.
    destruct H as [[= -> ->] | H]; [| now left].
    right. left. exists c. split; [now apply JsMapEntries.get_In |].
    right. right. now exists name.
  - unfold onContactAdded. simpl. intros H.
    apply JsMapEntries.In_set in H.
    destruct H as [[= -> ->] | H]; [| now left].
    right. right. now exists num, (platform_or_whatsapp platform).
  - unfold onContactRemoved. rewrite contacts_setContacts. cbv zeta.
    intros H. apply JsMapEntries.In_delete in H. left. tauto.
  - now left.
  - now left.
  - unfold onTrackedContacts. rewrite contacts_setContacts. cbv zeta.
    intros H. apply trackedContacts_fold_origin in H.
    destruct H as [H | [p ->]]; [now left |].
    right. right. now exists (displayNumber_of k p), p.
Qed.

(** ** Invariants of the contacts map *)

Lemma dispatch_entries_keyed now e s :
  entries_keyed (Dashboard.contacts s) ->
  entries_keyed (Dashboard.contacts (dispatch now e s)).
Proof.
  intros Hs k c' H. apply dispatch_entry_origin in H.
  destruct H as [H | [(c & Hc & Hc') | (num & p & ->)]].
  - now apply Hs.
  - apply Hs in Hc. rewrite <- Hc.
    destruct Hc' as [[update ->] | [[url ->] | [name ->]]];
      [| reflexivity | reflexivity].
    apply (updatedContact_fields now update c).
  - reflexivity.
Qed.

Lemma replay_entries_keyed events : forall s,
  entries_keyed (Dashboard.contacts s) ->
  entries_keyed (Dashboard.contacts (replay events s)).
Proof.
  unfold replay.
  induction events as [| [now e] events IH]; intros s H; cbn [fold_left];
    [exact H |].
  apply IH. now apply dispatch_entries_keyed.
Qed.

Lemma dispatch_same_server_cells now e s1 s2 :
  same_server_cells s1 s2 ->
  same_server_cells (dispatch now e s1) (dispatch now e s2).
Proof.
  intros (Hc & He & Hp).
  destruct e as [update | jid url | jid name | jid num platform | jid
                | jid message | method | l]; simpl dispatch.
  - unfold onTrackerUpdate.
    destruct (negb (JsString.truthy (TrackerUpdate.jid update)));
      [now repeat split |].
    destruct (TrackerUpdate.jid update) as [j |]; [| now repeat split].
    repeat split; simpl; rewrite ?Hc, ?He, ?Hp; reflexivity.
  - repeat split; simpl; rewrite ?Hc, ?He, ?Hp; reflexivity.
  - repeat split; simpl; rewrite ?Hc, ?He, ?Hp; reflexivity.
  - repeat split; simpl; rewrite ?Hc, ?He, ?Hp; reflexivity.
  - repeat split; simpl; rewrite ?Hc, ?He, ?Hp; reflexivity.
  - repeat split; simpl; rewrite ?Hc, ?He, ?Hp; reflexivity.
  - repeat split; simpl; rewrite ?Hc, ?He, ?Hp; reflexivity.
  - repeat split; simpl; rewrite ?Hc, ?He, ?Hp; reflexivity.
Qed.

Lemma replay_same_server_cells events : forall s1 s2,
  same_server_cells s1 s2 ->
  same_server_cells (replay events s1) (replay events s2).
Proof.
  unfold replay.
  induction events as [| [now e] events IH]; intros s1 s2 H;
    cbn [fold_left]; [exact H |].
  apply IH. now apply dispatch_same_server_cells.
Qed.

Lemma act_same_server_cells cs a s :
  same_server_cells (fst (act cs a s)) s.
Proof.
  destruct a; simpl; try destruct (connected cs p); repeat split.
Qed.

Lemma session_cons cs i rest s :
  session cs (i :: rest) s
  = (fst (session cs rest (fst (step cs i s))),
     (snd (step cs i s) ++ snd (session cs rest (fst (step cs i s))))%list).
Proof.
  cbn [session]. destruct (step cs i s) as [s1 sent1].
  cbn [fst snd]. now destruct (session cs rest s1).
Qed.

Lemma session_same_server_cells cs inputs : forall s,
  same_server_cells (fst (session cs inputs s))
    (replay (server_events inputs) s).
Proof.
  induction inputs as [| i rest IH]; intros s.
  - now repeat split.
  - rewrite session_cons. cbn [fst].
    destruct i as [now e | a]; cbn [step server_events flat_map fst].
    + apply IH.
    + cbn [app]. specialize (IH (fst (act cs a s))).
      pose proof (replay_same_server_cells (server_events rest) _ _
                    (act_same_server_cells cs a s)) as H.
      destruct IH as (I1 & I2 & I3). destruct H as (H1 & H2 & H3).
      change (flat_map _ rest) with (server_events rest).
      repeat split; congruence.
Qed.

(** X1: what the user does never touches the contacts, the error
    message or the probe method shown: after any mix of server events and
    user actions these three are what the server events alone produce. *)
Theorem session_follows_server
    (cs : ConnectionState.t) (inputs : list Input) (s : Dashboard.t) :
  let s' := fst (session cs inputs s) in
  let served := replay (server_events inputs) s in
  Dashboard.contacts s' = Dashboard.contacts served
  /\ Dashboard.error s' = Dashboard.error served
  /\ Dashboard.probeMethod s' = Dashboard.probeMethod served.
Proof.
  cbv zeta.
  destruct (session_same_server_cells cs inputs s) as (Hc & He & Hp).
  split; [exact Hc |]. split; [exact He | exact Hp].
Qed.

(** X2: in every state the mounted component can reach, no jid is stored
    twice and every entry is stored under the jid it carries. *)
Theorem reachable_entries_keyed_once
    (cs : ConnectionState.t) (inputs : list Input) :
  let s := fst (session cs inputs (fst (mount cs))) in
  NoDup (JsMap.keys (Dashboard.contacts s))
  /\ (forall k c, In (k, c) (Dashboard.contacts s) -> ContactInfo.jid c = k).
Proof.
  cbv zeta.
  destruct (session_same_server_cells cs inputs (fst (mount cs)))
    as (-> & _ & _).
  split.
  - apply replay_keys_nodup. apply initial_keys_nodup.
  - apply replay_entries_keyed. intros k c [].
Qed.

(** ** The contact cards *)

Lemma cards_of_contactsPanel s :
  cards_of (contactsPanel s)
  = map (contactCard s) (JsMap.values (Dashboard.contacts s)).
Proof.
  unfold contactsPanel.
  destruct (Dashboard.contacts s) as [| e r]; reflexivity.
Qed.

Lemma card_keys_keyed s :
  entries_keyed (Dashboard.contacts s) ->
  map ContactCard.key (cards_of (contactsPanel s))
  = JsMap.keys (Dashboard.contacts s).
Proof.
  rewrite cards_of_contactsPanel. unfold JsMap.values, JsMap.keys.
  rewrite !map_map. intros Hk. apply map_ext_in.
  intros [k c] Hin. simpl. now apply Hk.
Qed.

(** X3: in every reachable state the cards are shown in the order of the
    map, their React keys are the keys of the map and so pairwise
    distinct, the remove button of each card asks for the removal of the
    key its contact is stored under, and the placeholder is shown exactly
    when no contact is tracked. *)
Theorem reachable_cards_keyed
    (cs : ConnectionState.t) (inputs : list Input) :
  let s := fst (session cs inputs (fst (mount cs))) in
  let cards := cards_of (contactsPanel s) in
  map ContactCard.key cards = JsMap.keys (Dashboard.contacts s)
  /\ NoDup (map ContactCard.key cards)
  /\ map ContactCard.onRemove cards
     = map (fun k => [RemoveContact k]) (JsMap.keys (Dashboard.contacts s))
  /\ (contactsPanel s = NoContacts <-> Dashboard.contacts s = []).
Proof.
  cbv zeta.
  set (s := fst (session cs inputs (fst (mount cs)))).
  assert (Hn : NoDup (JsMap.keys (Dashboard.contacts s))
               /\ entries_keyed (Dashboard.contacts s)).
  { subst s.
    destruct (session_same_server_cells cs inputs (fst (mount cs)))
      as (-> & _ & _).
    split.
    - apply replay_keys_nodup. apply initial_keys_nodup.
    - apply replay_entries_keyed. intros k c []. }
  destruct Hn as [Hn Hk].
  pose proof (card_keys_keyed s Hk) as Hkeys.
  split; [exact Hkeys |]. split; [now rewrite Hkeys |]. split.
  - rewrite <- Hkeys, cards_of_contactsPanel, !map_map.
    apply map_ext. intros c. reflexivity.
  - unfold contactsPanel.
    destruct (Dashboard.contacts s); simpl; split;
      (reflexivity || discriminate).
Qed.

Lemma cards_after_delete s j (m : JsMap.t ContactInfo.t) :
  entries_keyed m ->
  map (contactCard s) (JsMap.values (JsMap.delete j m))
  = filter (fun card => negb (j =? ContactCard.key card))
      (map (contactCard s) (JsMap.values m)).
Proof.
  unfold JsMap.values.
  induction m as [| [k c] r IH]; intros Hk; simpl; [reflexivity |].
  assert (Hr : entries_keyed r).
  { intros k' c' H. apply Hk. now right. }
  rewrite (Hk k c (or_introl eq_refl)).
  destruct (j =? k); simpl; now rewrite IH.
Qed.

(** X4: when a contact-removed event arrives in a reachable state, the
    card with that key disappears and the other cards stay as they
    were and in their order. *)
Theorem reachable_cards_after_removal
    (cs : ConnectionState.t) (inputs : list Input) (jid : string) :
  let s := fst (session cs inputs (fst (mount cs))) in
  cards_of (contactsPanel (onContactRemoved jid s))
  = filter (fun card => negb (jid =? ContactCard.key card))
      (cards_of (contactsPanel s)).
Proof.
  cbv zeta.
  set (s := fst (session cs inputs (fst (mount cs)))).
  assert (Hk : entries_keyed (Dashboard.contacts s)).
  { subst s.
    destruct (session_same_server_cells cs inputs (fst (mount cs)))
      as (-> & _ & _).
    apply replay_entries_keyed. intros k c []. }
  rewrite !cards_of_contactsPanel.
  unfold onContactRemoved. rewrite contacts_setContacts. cbv zeta.
  now rewrite <- (cards_after_delete s jid _ Hk).
Qed.

(** ** What the component sends *)

Lemma step_keeps_connected cs i s :
  connected cs (Dashboard.selectedPlatform s) = true ->
  connected cs (Dashboard.selectedPlatform (fst (step cs i s))) = true.
Proof.
  intros H. destruct i as [now e | a]; cbn [step fst].
  - destruct e as [update | jid url | jid name | jid num platform | jid
                  | jid message | method | l]; simpl dispatch; try exact H.
    unfold onTrackerUpdate.
    destruct (negb (JsString.truthy (TrackerUpdate.jid update)));
      [exact H |].
    now destruct (TrackerUpdate.jid update).
  - destruct a; simpl; try exact H.
    destruct (connected cs p) eqn:Hp; [exact Hp | exact H].
Qed.

Lemma step_sends_numbers cs i s : Forall add_has_number (snd (step cs i s)).
Proof.
  destruct i as [now e | a]; cbn [step snd]; [constructor |].
  destruct a; simpl; repeat constructor.
  unfold handleAdd. simpl.
  destruct (String.eqb_spec (Dashboard.newContact s) ""); simpl;
    repeat constructor. assumption.
Qed.

Lemma step_sends_connected cs i s :
  connected cs (Dashboard.selectedPlatform s) = true ->
  Forall (add_is_connected cs) (snd (step cs i s)).
Proof.
  intros H. destruct i as [now e | a]; cbn [step snd]; [constructor |].
  destruct a; simpl; repeat constructor.
  unfold handleAdd. destruct (negb _); repeat constructor. exact H.
Qed.

Lemma session_sends_numbers cs inputs : forall s,
  Forall add_has_number (snd (session cs inputs s)).
Proof.
  induction inputs as [| i rest IH]; intros s; [constructor |].
  rewrite session_cons. cbn [snd]. apply Forall_app. split.
  - apply step_sends_numbers.
  - apply IH.
Qed.

Lemma session_sends_connected cs inputs : forall s,
  connected cs (Dashboard.selectedPlatform s) = true ->
  Forall (add_is_connected cs) (snd (session cs inputs s)).
Proof.
  induction inputs as [| i rest IH]; intros s H; [constructor |].
  rewrite session_cons. cbn [snd]. apply Forall_app. split.
  - now apply step_sends_connected.
  - apply IH. now apply step_keeps_connected.
Qed.

(** X5: whatever the server sends and the user does, every add-contact
    command the component emits carries a non-empty number; when at
    least one platform is connected (and the connection state stays as
    it is) it also names a connected platform; and right after a
    contact-added event pressing Add sends nothing, because the event
    has cleared the input. *)
Theorem add_contact_commands
    (cs : ConnectionState.t) (inputs : list Input) :
  Forall add_has_number (snd (session cs inputs (fst (mount cs))))
  /\ (ConnectionState.whatsapp cs || ConnectionState.signal cs = true ->
      Forall (add_is_connected cs)
        (snd (session cs inputs (fst (mount cs)))))
  /\ (forall now jid number platform s,
        snd (act cs PressAdd
               (dispatch now (ContactAddedEvent jid number platform) s))
        = []).
Proof.
  split; [apply session_sends_numbers |]. split; [| reflexivity].
  intros H. apply session_sends_connected.
  unfold mount. cbn [fst Dashboard.initial Dashboard.selectedPlatform].
  destruct (ConnectionState.whatsapp cs) eqn:Hw; simpl; [exact Hw |].
  simpl in H. exact H.
Qed.

Lemma add_contact_commands_witness :
  Forall (add_is_connected (ConnectionState.mk false true))
    (snd (session (ConnectionState.mk false true)
            [FromUser (ClickPlatform whatsapp);
             FromUser (TypeNewContact "491701234567");
             FromUser PressAdd]
            (fst (mount (ConnectionState.mk false true)))))
  /\ snd (session (ConnectionState.mk false true)
            [FromUser (ClickPlatform whatsapp);
             FromUser (TypeNewContact "491701234567");
             FromUser PressAdd]
            (fst (mount (ConnectionState.mk false true))))
     = [AddContact "491701234567" signal].
Proof.
  split; [| reflexivity].
  apply (add_contact_commands (ConnectionState.mk false true)).
  reflexivity.
Defined.

(** ** What each event can change *)

(** X6: no server event changes the selected platform, the privacy mode
    or the connections panel; the text the user has typed is left alone
    by every event except contact-added, which clears it. *)
Theorem dispatch_keeps_user_cells
    (now : number) (e : Event) (s : Dashboard.t) :
  let s' := dispatch now e s in
  Dashboard.selectedPlatform s' = Dashboard.selectedPlatform s
  /\ Dashboard.privacyMode s' = Dashboard.privacyMode s
  /\ Dashboard.showConnections s' = Dashboard.showConnections s
  /\ Dashboard.newContact s'
     = match e with
       | ContactAddedEvent _ _ _ => ""
       | _ => Dashboard.newContact s
       end
  /\ Dashboard.inputNumber s'
     = match e with
       | ContactAddedEvent _ _ _ => ""
       | _ => Dashboard.inputNumber s
       end.
Proof.
  destruct e as [update | jid url | jid name | jid num platform | jid
                | jid message | method | l]; simpl; try (now repeat split).
  unfold onTrackerUpdate.
  destruct (negb (JsString.truthy (TrackerUpdate.jid update)));
    [now repeat split |].
  destruct (TrackerUpdate.jid update); now repeat split.
Qed.

(** The ids a bootstrap reply adds are the listed ids that were not
    tracked, after the tracked ones. *)
Lemma trackedContacts_fold_keys l : forall next,
  exists added,
    JsMap.keys (fold_left trackedContacts_step l next)
    = (JsMap.keys next ++ added)%list
    /\ forall k, In k added <-> In k (map fst l) /\ ~ In k (JsMap.keys next).
Proof.
  induction l as [| [id p] l IH]; intros next; cbn [fold_left].
  - exists []. split; [now rewrite app_nil_r |]. simpl. tauto.
  - assert (E : trackedContacts_step next (id, p)
                = match JsMap.get id next with
                  | Some _ => next
                  | None => JsMap.set id (bootstrapEntry id p) next
                  end).
    { unfold trackedContacts_step. rewrite has_get.
      now destruct (JsMap.get id next). }
    rewrite E. clear E.
    destruct (JsMap.get id next) as [c |] eqn:Hid.
    all: match goal with
         | |- context [fold_left _ _ ?n] =>
             destruct (IH n) as (added & Hk & Hin)
         end.
    + exists added. split; [exact Hk |].
      intros k. rewrite Hin. simpl. split; [tauto |].
      intros [[<- | H] Hn]; [| tauto].
      exfalso. apply Hn. apply JsMapEntries.get_In in Hid.
      apply (in_map fst) in Hid. exact Hid.
    + rewrite JsMapEntries.keys_set, Hid in Hk, Hin.
      exists (id :: added). split; [now rewrite Hk, <- app_assoc |].
      apply JsMapFacts.get_None_not_In in Hid.
      intros k. simpl. rewrite Hin, in_app_iff. simpl.
      destruct (string_dec id k) as [<- | Hne]; [tauto |].
      split; [tauto |]. intros [[? | ?] ?]; [congruence | tauto].
Qed.

(** X7: which events change the set of tracked jids.  tracker-update,
    profile-pic, contact-name, error and probe-method events leave the
    keys of the map and their order as they are; contact-added appends
    its jid unless it is tracked already; contact-removed drops its jid
    and keeps the order of the others; the tracked-contacts reply appends
    exactly the listed ids that were not tracked. *)
Theorem dispatch_keys
    (now : number) (e : Event) (s : Dashboard.t) :
  let keys := JsMap.keys (Dashboard.contacts s) in
  let keys' := JsMap.keys (Dashboard.contacts (dispatch now e s)) in
  match e with
  | ContactAddedEvent jid _ _ =>
      keys' = if JsMap.has jid (Dashboard.contacts s) then keys
              else (keys ++ [jid])%list
  | ContactRemovedEvent jid =>
      keys' = filter (fun k => negb (jid =? k)) keys
  | TrackedContactsEvent l =>
      exists added,
        keys' = (keys ++ added)%list
        /\ forall k, In k added <-> In k (map fst l) /\ ~ In k keys
  | _ => keys' = keys
  end.
Proof.
  destruct e as [update | jid url | jid name | jid num platform | jid
                | jid message | method | l]; cbv zeta; simpl dispatch.
  - unfold onTrackerUpdate.
    destruct (negb (JsString.truthy (TrackerUpdate.jid update)));
      [reflexivity |].
    destruct (TrackerUpdate.jid update) as [j |]; [| reflexivity].
    rewrite contacts_setContacts. cbv zeta.
    destruct (JsMap.get j (Dashboard.contacts s)) eqn:Hj; [| reflexivity].
    now rewrite JsMapEntries.keys_set, Hj.
  - unfold onProfilePic. rewrite contacts_setContacts. cbv zeta.
    destruct (JsMap.get jid (Dashboard.contacts s)) eqn:Hj; [| reflexivity].
    now rewrite JsMapEntries.keys_set, Hj.
  - unfold onContactName. rewrite contacts_setContacts. cbv zeta.
    destruct (JsMap.get jid (Dashboard.contacts s)) eqn:Hj; [| reflexivity].
    now rewrite JsMapEntries.keys_set, Hj.
  - unfold onContactAdded. simpl.
    rewrite JsMapEntries.keys_set, has_get.
    now destruct (JsMap.get jid (Dashboard.contacts s)).
  - unfold onContactRemoved. rewrite contacts_setContacts.
    apply JsMapEntries.keys_delete.
  - reflexivity.
  - reflexivity.
  - unfold onTrackedContacts. rewrite contacts_setContacts.
    apply trackedContacts_fold_keys.
Qed.

(** ** Events aimed at different contacts *)






(** ** The chart history *)

Lemma newDataPoint_timestamp now update p :
  newDataPoint now update = Some p -> TrackerData.timestamp p = now.
Proof.
  unfold newDataPoint.
  destruct (TrackerUpdate.median update); [| discriminate].
  destruct (TrackerUpdate.devices update) as [[| d ds] |];
    try discriminate.
  now intros [= <-].
Qed.

Lemma sorted_snoc (l : list Z) (x : Z) :
  Sorted Z.le l -> Forall (fun y => (y <= x)%Z) l ->
  Sorted Z.le (l ++ [x]).
Proof.
  induction l as [| a l IH]; simpl; intros Hs Hf.
  - repeat constructor.
  - inversion Hs as [| ? ? Hl Hhd]; subst.
    inversion Hf as [| ? ? Ha Hf']; subst.
    constructor; [now apply IH |].
    destruct l as [| b l']; simpl.
    + now constructor.
    + constructor. now inversion Hhd.
Qed.

Lemma chart_in_order_later t t' chart :
  (t <= t')%Z -> chart_in_order t chart -> chart_in_order t' chart.
Proof.
  intros Hle [Hs Hf]. split; [exact Hs |].
  eapply Forall_impl; [| exact Hf]. simpl. intros p Hp. lia.
Qed.

Lemma updatedContact_chart_in_order now update c :
  chart_in_order now (ContactInfo.data c) ->
  chart_in_order now (ContactInfo.data (updatedContact now update c)).
Proof.
  intros [Hs Hf]. rewrite updatedContact_data.
  destruct (newDataPoint now update) as [p |] eqn:Hp; [| now split].
  apply newDataPoint_timestamp in Hp. split.
  - rewrite map_app. simpl. rewrite Hp. apply sorted_snoc; [exact Hs |].
    now rewrite Forall_map.
  - apply Forall_app. split; [exact Hf |]. constructor; [lia | constructor].
Qed.

Lemma dispatch_charts_in_order t now e s :
  (t <= now)%Z ->
  charts_in_order t (Dashboard.contacts s) ->
  charts_in_order now (Dashboard.contacts (dispatch now e s)).
Proof.
  intros Hle Hs k c' H. apply dispatch_entry_origin in H.
  destruct H as [H | [(c & Hc & Hc') | (num & p & ->)]].
  - apply (chart_in_order_later t); [exact Hle | now apply (Hs k)].
  - apply Hs in Hc. apply (chart_in_order_later t now _ Hle) in Hc.
    destruct Hc' as [[update ->] | [[url ->] | [name ->]]];
      [| exact Hc | exact Hc].
    now apply updatedContact_chart_in_order.
  - split; constructor.
Qed.

Lemma replay_charts_in_order events : forall s t,
  charts_in_order t (Dashboard.contacts s) ->
  Sorted Z.le (t :: map fst events) ->
  exists t', charts_in_order t' (Dashboard.contacts (replay events s)).
Proof.
  unfold replay.
  induction events as [| [now e] events IH]; intros s t Hs Hsorted;
    cbn [fold_left map fst] in *.
  - now exists t.
  - inversion Hsorted as [| ? ? Hrest Hhd]; subst.
    inversion Hhd as [| ? ? Hle]; subst.
    apply (IH _ now); [| exact Hrest].
    now apply (dispatch_charts_in_order t).
Qed.

(** X9: when the server events are handled at clock readings that never
    go back, the chart of every contact is in the order of its
    timestamps, in every state the component reaches. *)
Theorem reachable_charts_in_order
    (cs : ConnectionState.t) (inputs : list Input) :
  Sorted Z.le (map fst (server_events inputs)) ->
  let s := fst (session cs inputs (fst (mount cs))) in
  forall k c,
    In (k, c) (Dashboard.contacts s) ->
    Sorted Z.le (map TrackerData.timestamp (ContactInfo.data c)).
Proof.
  intros Hsorted s k c Hin. subst s.
  destruct (session_same_server_cells cs inputs (fst (mount cs)))
    as (E & _ & _).
  rewrite E in Hin. clear E.
  assert (H0 : forall t, charts_in_order t
                           (Dashboard.contacts (fst (mount cs)))).
  { intros t k' c' []. }
  destruct (server_events inputs) as [| [now e] events] eqn:Ev.
  - destruct Hin.
  - destruct (replay_charts_in_order ((now, e) :: events)
                (fst (mount cs)) now (H0 now)) as [t' Ht'].
    + constructor; [exact Hsorted |]. constructor. simpl. lia.
    + now apply (Ht' k c).
Qed.

Lemma reachable_charts_in_order_witness :
  Forall (fun entry =>
            Sorted Z.le
              (map TrackerData.timestamp (ContactInfo.data (snd entry))))
    (Dashboard.contacts
       (fst (session (ConnectionState.mk true false)
               [FromServer 1000%Z
                  (ContactAddedEvent sample_jid "491701234567" None);
                FromServer 2000%Z (TrackerUpdateEvent sample_update);
                FromUser TogglePrivacyMode;
                FromServer 5000%Z (TrackerUpdateEvent sample_update)]
               (fst (mount (ConnectionState.mk true false)))))).
Proof.
  apply Forall_forall. intros [k c] Hin.
  apply (reachable_charts_in_order (ConnectionState.mk true false)
           [FromServer 1000%Z
              (ContactAddedEvent sample_jid "491701234567" None);
            FromServer 2000%Z (TrackerUpdateEvent sample_update);
            FromUser TogglePrivacyMode;
            FromServer 5000%Z (TrackerUpdateEvent sample_update)]
           ltac:(simpl; repeat constructor; lia) k c Hin).
Defined.

(** ** The bootstrap reply *)

(** X10: after a tracked-contacts reply, an id that was tracked keeps its
    entry; an id that was not gets the entry made from the platform of
    its first listing in the reply, whatever later listings say; an id
    that is neither tracked nor listed stays absent.  A reply handled in
    two parts gives the state of handling it whole. *)
Theorem onTrackedContacts_lookup
    (l l' : list (string * Platform)) (s : Dashboard.t) (id : string) :
  JsMap.get id (Dashboard.contacts (onTrackedContacts l s))
  = match JsMap.get id (Dashboard.contacts s) with
    | Some c => Some c
    | None =>
        match find (fun entry => id =? fst entry) l with
        | Some (_, platform) =>
            Some (ContactInfo.mk id (displayNumber_of id platform)
                    (displayNumber_of id platform) [] [] 0%Z None None
                    platform)
        | None => None
        end
    end
  /\ onTrackedContacts (l ++ l') s
     = onTrackedContacts l' (onTrackedContacts l s).
Proof.
  split.
  - unfold onTrackedContacts. rewrite contacts_setContacts. cbv zeta.
    rewrite trackedContacts_fold_get. unfold first_listed.
    destruct (JsMap.get id (Dashboard.contacts s)); [reflexivity |].
    now destruct (find (fun entry => id =? fst entry) l) as [[i p] |].
  - unfold onTrackedContacts. rewrite setContacts_setContacts.
    apply setContacts_ext. apply fold_left_app.
Qed.

(** ** The display number of a bootstrapped contact *)

Lemma substring_whole s : substring 0 (String.length s) s = s.
Proof. induction s as [| c s IH]; simpl; [reflexivity | now rewrite IH]. Qed.

Lemma includes_char_cons (sep c : ascii) (r : string) :
  JsString.includes (String sep "") (String c r) = false ->
  c <> sep /\ JsString.includes (String sep "") r = false.
Proof.
  unfold JsString.includes. simpl.
  destruct (ascii_dec sep c) as [-> | Hne].
  - destruct r; discriminate.
  - intros H. split; [congruence |].
    destruct r as [| c' r'].
    + reflexivity.
    + destruct (index 0 (String sep "") (String c' r')); [discriminate |].
      reflexivity.
Qed.

Lemma split_head_without_separator sep s :
  JsString.includes (String sep "") s = false ->
  JsString.split_head sep s = s.
Proof.
  induction s as [| c r IH]; simpl; [reflexivity |].
  intros H. apply includes_char_cons in H. destruct H as [Hc Hr].
  destruct (Ascii.eqb_spec c sep); [contradiction |].
  now rewrite IH.
Qed.

Lemma split_head_before_separator sep a b :
  JsString.includes (String sep "") a = false ->
  JsString.split_head sep (a ++ String sep b) = a.
Proof.
  induction a as [| c r IH]; simpl.
  - intros _. now rewrite Ascii.eqb_refl.
  - intros H. apply includes_char_cons in H. destruct H as [Hc Hr].
    destruct (Ascii.eqb_spec c sep); [contradiction |].
    now rewrite IH.
Qed.

Lemma replace_signal_prefix rest :
  JsString.replace "signal:" "" ("signal:" ++ rest) = rest.
Proof.
  unfold JsString.replace.
  assert (E : index 0 "signal:" ("signal:" ++ rest) = Some 0).
  { simpl. now destruct rest. }
  rewrite E. simpl. rewrite Nat.sub_0_r. apply substring_whole.
Qed.

(** X11: the display number the bootstrap extracts.  For a WhatsApp id
    it is the text before the first '@', the whole id when there is no
    '@'; for a Signal id that starts with 'signal:' it is the rest of the
    id, and an id that does not contain 'signal:' is shown as it is. *)
Theorem displayNumber_of_id (local rest id : string) :
  (JsString.includes "@" local = false ->
     displayNumber_of (local ++ "@" ++ rest) whatsapp = local)
  /\ (JsString.includes "@" id = false ->
      displayNumber_of id whatsapp = id)
  /\ displayNumber_of ("signal:" ++ rest) signal = rest
  /\ (JsString.includes "signal:" id = false ->
      displayNumber_of id signal = id).
Proof.
  split; [| split; [| split]].
  - intros H. unfold displayNumber_of.
    now apply split_head_before_separator.
  - intros H. now apply split_head_without_separator.
  - apply replace_signal_prefix.
  - unfold displayNumber_of, JsString.replace, JsString.includes.
    now destruct (index 0 "signal:" id).
Qed.

Lemma displayNumber_of_id_witness :
  displayNumber_of ("491701234567" ++ "@" ++ "s.whatsapp.net") whatsapp
  = "491701234567"
  /\ displayNumber_of "491701234567" whatsapp = "491701234567"
  /\ displayNumber_of "+15550100" signal = "+15550100".
Proof.
  split; [| split].
  - apply (displayNumber_of_id "491701234567" "s.whatsapp.net" "").
    reflexivity.
  - apply (displayNumber_of_id "" "" "491701234567"). reflexivity.
  - apply (displayNumber_of_id "" "" "+15550100"). reflexivity.
Defined.

(** X12: a contact that is not tracked gets the same entry, at the same
    place, from the bootstrap reply as from a contact-added event that
    carries the display number of its id; so for a WhatsApp id
    [local@domain] and for a Signal id [signal:number] the reloaded
    dashboard shows what the live event showed. *)
Theorem bootstrap_agrees_with_contact_added
    (id local rest : string) (platform : Platform) (s : Dashboard.t) :
  (JsMap.get id (Dashboard.contacts s) = None ->
     Dashboard.contacts (onTrackedContacts [(id, platform)] s)
     = Dashboard.contacts
         (onContactAdded id (displayNumber_of id platform) (Some platform) s))
  /\ (JsString.includes "@" local = false ->
      JsMap.get (local ++ "@" ++ rest) (Dashboard.contacts s) = None ->
      Dashboard.contacts
        (onTrackedContacts [(local ++ "@" ++ rest, whatsapp)] s)
      = Dashboard.contacts
          (onContactAdded (local ++ "@" ++ rest) local None s))
  /\ (JsMap.get ("signal:" ++ rest) (Dashboard.contacts s) = None ->
      Dashboard.contacts (onTrackedContacts [("signal:" ++ rest, signal)] s)
      = Dashboard.contacts
          (onContactAdded ("signal:" ++ rest) rest (Some signal) s)).
Proof.
  assert (G : forall id platform,
             JsMap.get id (Dashboard.contacts s) = None ->
             Dashboard.contacts (onTrackedContacts [(id, platform)] s)
             = Dashboard.contacts
                 (onContactAdded id (displayNumber_of id platform)
                    (Some platform) s)).
  { intros i p H. unfold onTrackedContacts, onContactAdded. simpl.
    unfold trackedContacts_step. rewrite has_get, H. reflexivity. }
  split; [apply G |]. split.
  - intros Hl H. rewrite (G _ whatsapp H).
    unfold displayNumber_of.
    change (local ++ "@" ++ rest) with (local ++ String "@" rest).
    now rewrite (split_head_before_separator "@" local rest Hl).
  - intros H. rewrite (G _ signal H).
    unfold displayNumber_of. now rewrite replace_signal_prefix.
Qed.

Lemma bootstrap_agrees_with_contact_added_witness :
  Dashboard.contacts
    (onTrackedContacts [("signal:" ++ "+15550100", signal)] sample_state)
  = Dashboard.contacts
      (onContactAdded ("signal:" ++ "+15550100") "+15550100" (Some signal)
         sample_state)
  /\ Dashboard.contacts
       (onTrackedContacts
          [("491701234568" ++ "@" ++ "s.whatsapp.net", whatsapp)]
          sample_state)
     = Dashboard.contacts
         (onContactAdded ("491701234568" ++ "@" ++ "s.whatsapp.net")
            "491701234568" None sample_state).
Proof.
  split.
  - apply (bootstrap_agrees_with_contact_added "" "" "+15550100" signal
             sample_state).
    reflexivity.
  - apply (bootstrap_agrees_with_contact_added "" "491701234568"
             "s.whatsapp.net" signal sample_state); reflexivity.
Defined.

(** ** Adding and removing *)

(** X13: a contact-added event for a jid that is not tracked appends its
    entry after the others; for a jid that is tracked it puts a new,
    empty entry in the place of the old one, whose chart history, devices,
    name and picture are gone.  No other entry changes. *)
Theorem onContactAdded_placement
    (jid number : string) (platform : option Platform) (s : Dashboard.t) :
  let entry :=
    ContactInfo.mk jid number number [] [] 0%Z None None
      (platform_or_whatsapp platform) in
  let after := Dashboard.contacts (onContactAdded jid number platform s) in
  (JsMap.get jid (Dashboard.contacts s) = None ->
     after = (Dashboard.contacts s ++ [(jid, entry)])%list)
  /\ (forall old, JsMap.get jid (Dashboard.contacts s) = Some old ->
        JsMap.keys after = JsMap.keys (Dashboard.contacts s)
        /\ JsMap.get jid after = Some entry)
  /\ (forall k, k <> jid ->
        JsMap.get k after = JsMap.get k (Dashboard.contacts s)).
Proof.
  cbv zeta. unfold onContactAdded. simpl. split; [| split].
  - apply JsMapFacts.set_absent.
  - intros old H. split.
    + now apply JsMapFacts.keys_set_present with (v0 := old).
    + apply JsMapFacts.get_set_eq.
  - intros k Hk. apply JsMapFacts.get_set_ne. congruence.
Qed.

Lemma onContactAdded_placement_witness :
  Dashboard.contacts
    (onContactAdded "signal:+15550100" "+15550100" (Some signal)
       sample_state)
  = (Dashboard.contacts sample_state
     ++ [("signal:+15550100",
          ContactInfo.mk "signal:+15550100" "+15550100" "+15550100" []
            [] 0%Z None None signal)])%list
  /\ JsMap.get sample_jid
       (Dashboard.contacts
          (onContactAdded sample_jid "491701234567" None
             (onTrackerUpdate 1000%Z sample_update sample_state)))
     = Some sample_contact.
Proof.
  split.
  - apply (onContactAdded_placement "signal:+15550100" "+15550100"
             (Some signal) sample_state).
    reflexivity.
  - eapply (onContactAdded_placement sample_jid "491701234567" None
              (onTrackerUpdate 1000%Z sample_update sample_state)).
    reflexivity.
Defined.

(** X14: after a contact-removed event its jid is not in the map and
    every other jid has the entry it had; when the jid was not tracked
    the state is unchanged. *)
Theorem onContactRemoved_lookup (jid : string) (s : Dashboard.t) :
  (forall k,
     JsMap.get k (Dashboard.contacts (onContactRemoved jid s))
     = if k =? jid then None else JsMap.get k (Dashboard.contacts s))
  /\ (JsMap.get jid (Dashboard.contacts s) = None ->
      onContactRemoved jid s = s).
Proof.
  split.
  - intros k. unfold onContactRemoved. rewrite contacts_setContacts.
    apply JsMapFacts.get_delete.
  - intros H. unfold onContactRemoved.
    rewrite <- (setContacts_id s) at 2. apply setContacts_ext.
    now apply JsMapFacts.delete_absent.
Qed.

Lemma onContactRemoved_lookup_witness :
  onContactRemoved "signal:+15550100" sample_state = sample_state.
Proof.
  apply (onContactRemoved_lookup "signal:+15550100" sample_state).
  reflexivity.
Defined.

(** ** What the bootstrap script runs and prints *)

Section InitSignalTrace.
Import InitSignal.
Variable hostVolPath : string.
Variable e : env.

Lemma run_prints_error :
  In (LogError "❌ Failed to initialize Signal API container:")
    (snd (InitSignal.run hostVolPath e))
  <-> exit_status (fst (InitSignal.run hostVolPath e)) = 1%Z.
Proof.
  unfold InitSignal.run, main, try_catch, bind, execSync, console_log,
    console_error, process_exit.
  destruct (e docker_info), (e docker_inspect), (e docker_start),
    (e (docker_run hostVolPath)); simpl;
    (split; [intros H; repeat (destruct H as [H | H]; try discriminate H);
             try reflexivity; try destruct H
            | intros H; try discriminate H; tauto]).
Qed.

Lemma docker_run_is_not_another_command :
  docker_run hostVolPath <> docker_info
  /\ docker_run hostVolPath <> docker_inspect
  /\ docker_run hostVolPath <> docker_start.
Proof. repeat split; discriminate. Qed.

End InitSignalTrace.

(** X15: the script always runs [docker info] first; it runs
    [docker start] only after a successful inspect, and [docker run]
    exactly when Docker is available and the inspect or the start has
    failed, so a container that exists and starts is never created anew;
    it prints the failure message exactly when it exits with status 1. *)
Theorem init_signal_commands
    (hostVolPath : string) (e : InitSignal.env) :
  let result := InitSignal.run hostVolPath e in
  let commands := InitSignal.commands (snd result) in
  (exists rest, commands = InitSignal.docker_info :: rest)
  /\ (In InitSignal.docker_start commands <->
        e InitSignal.docker_info = true
        /\ e InitSignal.docker_inspect = true)
  /\ (In (InitSignal.docker_run hostVolPath) commands <->
        e InitSignal.docker_info = true
        /\ (e InitSignal.docker_inspect = false
            \/ e InitSignal.docker_start = false))
  /\ (In (InitSignal.LogError "❌ Failed to initialize Signal API container:")
        (snd result)
      <-> InitSignal.exit_status (fst result) = 1%Z).
Proof.
  cbv zeta. rewrite run_commands.
  destruct (docker_run_is_not_another_command hostVolPath)
    as (N1 & N2 & N3).
  split; [| split; [| split]].
  - destruct (e InitSignal.docker_info), (e InitSignal.docker_inspect),
      (e InitSignal.docker_start); eauto.
  - destruct (e InitSignal.docker_info), (e InitSignal.docker_inspect),
      (e InitSignal.docker_start); cbn [In];
      (split; [intros H; repeat (destruct H as [H | H]);
               try discriminate H; try (symmetry in H; contradiction);
               try destruct H; auto
              | intros [H1 H2]; try discriminate; tauto]).
  - destruct (e InitSignal.docker_info), (e InitSignal.docker_inspect),
      (e InitSignal.docker_start); cbn [In];
      (split; [intros H; repeat (destruct H as [H | H]);
               try (symmetry in H; contradiction);
               try destruct H; auto
              | intros [H1 [H2 | H2]]; try discriminate; tauto]).
  - apply run_prints_error.
Qed.

(** ** Tracker updates in the states the component reaches *)

Lemma dispatch_no_empty_key now e s :
  announces_no_empty_jid e ->
  JsMap.get "" (Dashboard.contacts s) = None ->
  JsMap.get "" (Dashboard.contacts (dispatch now e s)) = None.
Proof.
  intros He H.
  destruct e as [update | jid url | jid name | jid num platform | jid
                | jid message | method | l]; simpl dispatch.
  - unfold onTrackerUpdate.
    destruct (negb (JsString.truthy (TrackerUpdate.jid update)));
      [exact H |].
    destruct (TrackerUpdate.jid update) as [j |]; [| exact H].
    rewrite contacts_setContacts. cbv zeta.
    destruct (JsMap.get j (Dashboard.contacts s)) eqn:Hj; [| exact H].
    rewrite JsMapFacts.get_set_ne; [exact H |]. congruence.
  - unfold onProfilePic. rewrite contacts_setContacts. cbv zeta.
    destruct (JsMap.get jid (Dashboard.contacts s)) eqn:Hj; [| exact H].
    rewrite JsMapFacts.get_set_ne; [exact H |]. congruence.
  - unfold onContactName. rewrite contacts_setContacts. cbv zeta.
    destruct (JsMap.get jid (Dashboard.contacts s)) eqn:Hj; [| exact H].
    rewrite JsMapFacts.get_set_ne; [exact H |]. congruence.
  - unfold onContactAdded. simpl. simpl in He.
    rewrite JsMapFacts.get_set_ne; [exact H | exact He].
  - unfold onContactRemoved. rewrite contacts_setContacts.
    rewrite JsMapFacts.get_delete. now destruct ("" =? jid).
  - exact H.
  - exact H.
  - unfold onTrackedContacts. rewrite contacts_setContacts. cbv zeta.
    rewrite trackedContacts_fold_get, H.
    destruct (first_listed "" l) as [p |] eqn:F; [| reflexivity].
    exfalso. simpl in He.
    assert (Hin : In "" (map fst l)).
    { apply first_listed_of_listed. now exists p. }
    apply in_map_iff in Hin. destruct Hin as (entry & Hfst & Hin).
    rewrite Forall_forall in He. now apply (He entry Hin).
Qed.

Lemma replay_no_empty_key events : forall s,
  Forall (fun ne => announces_no_empty_jid (snd ne)) events ->
  JsMap.get "" (Dashboard.contacts s) = None ->
  JsMap.get "" (Dashboard.contacts (replay events s)) = None.
Proof.
  unfold replay.
  induction events as [| [now e] events IH]; intros s Hall H;
    cbn [fold_left]; [exact H |].
  inversion Hall as [| ? ? He Hrest]; subst.
  apply IH; [exact Hrest |]. now apply dispatch_no_empty_key.
Qed.

(** C1: in every state the component reaches from its mount, through
    whatever the user does and through server events that announce no
    contact under the empty jid, a tracker-update that names a contact of
    the map replaces each of presence, deviceCount and devices of that
    contact exactly when the event carries the field; the contact's jid,
    displayNumber, contactName, profilePic and platform, every other
    contact, and the order of the map are unchanged. *)
Theorem onTrackerUpdate_partial_update
    (cs : ConnectionState.t) (inputs : list Input)
    (now : number) (update : TrackerUpdate.t)
    (j : string) (c : ContactInfo.t) :
  Forall (fun ne => announces_no_empty_jid (snd ne)) (server_events inputs) ->
  let s := fst (session cs inputs (fst (mount cs))) in
  TrackerUpdate.jid update = Some j ->
  JsMap.get j (Dashboard.contacts s) = Some c ->
  let s' := onTrackerUpdate now update s in
  exists c',
    JsMap.get j (Dashboard.contacts s') = Some c'
    /\ ContactInfo.presence c'
       = match TrackerUpdate.presence update with
         | Some p => p
         | None => ContactInfo.presence c
         end
    /\ ContactInfo.deviceCount c'
       = match TrackerUpdate.deviceCount update with
         | Some n => n
         | None => ContactInfo.deviceCount c
         end
    /\ ContactInfo.devices c'
       = match TrackerUpdate.devices update with
         | Some ds => ds
         | None => ContactInfo.devices c
         end
    /\ ContactInfo.jid c' = ContactInfo.jid c
    /\ ContactInfo.displayNumber c' = ContactInfo.displayNumber c
    /\ ContactInfo.contactName c' = ContactInfo.contactName c
    /\ ContactInfo.profilePic c' = ContactInfo.profilePic c
    /\ ContactInfo.platform c' = ContactInfo.platform c
    /\ (forall k, k <> j ->
          JsMap.get k (Dashboard.contacts s')
          = JsMap.get k (Dashboard.contacts s))
    /\ JsMap.keys (Dashboard.contacts s') = JsMap.keys (Dashboard.contacts s).
Proof.
  intros Hall s Hj Hc.
  assert (Hne : j <> "").
  { intros ->. subst s.
    destruct (session_same_server_cells cs inputs (fst (mount cs)))
      as (E & _ & _).
    rewrite E in Hc.
    rewrite (replay_no_empty_key _ _ Hall) in Hc; [discriminate |].
    reflexivity. }
  exact (onTrackerUpdate_merges_fields now update s j c Hj Hne Hc).
Qed.

Lemma onTrackerUpdate_partial_update_witness :
  exists c',
    JsMap.get sample_jid
      (Dashboard.contacts
         (onTrackerUpdate 1000%Z sample_update
            (fst (session (ConnectionState.mk true false)
                    [FromServer 500%Z
                       (ContactAddedEvent sample_jid "491701234567" None);
                     FromUser TogglePrivacyMode]
                    (fst (mount (ConnectionState.mk true false)))))))
    = Some c'
    /\ ContactInfo.presence c' = None
    /\ ContactInfo.deviceCount c' = 2%Z
    /\ ContactInfo.devices c' = [device_offline; device_online]
    /\ ContactInfo.contactName c' = "491701234567".
Proof.
  destruct (onTrackerUpdate_partial_update (ConnectionState.mk true false)
              [FromServer 500%Z
                 (ContactAddedEvent sample_jid "491701234567" None);
               FromUser TogglePrivacyMode]
              1000%Z sample_update sample_jid sample_contact
              ltac:(repeat constructor; discriminate) eq_refl eq_refl)
    as (c' & H0 & H1 & H2 & H3 & _ & _ & H6 & _).
  exists c'. repeat split; assumption.
Defined.

(** ** The order of events aimed at different contacts *)


Lemma retime_retime p : retime (retime p) = retime p.
Proof. reflexivity. Qed.












(** The timestamps do tell the two orders apart once the clock has
    moved between the two events and one of them records a chart
    point. *)
Remark order_of_events_shows_in_timestamps :
  dispatch 2000%Z (ContactNameEvent "signal:+15550100" "Bob")
    (dispatch 1000%Z (TrackerUpdateEvent sample_update)
       (onContactAdded "signal:+15550100" "+15550100" (Some signal)
          sample_state))
  <> dispatch 2000%Z (TrackerUpdateEvent sample_update)
       (dispatch 1000%Z (ContactNameEvent "signal:+15550100" "Bob")
          (onContactAdded "signal:+15550100" "+15550100" (Some signal)
             sample_state)).
Proof.
  intros H.
  apply (f_equal (fun s =>
           option_map (fun c => map TrackerData.timestamp (ContactInfo.data c))
             (JsMap.get sample_jid (Dashboard.contacts s)))) in H.
  vm_compute in H. discriminate.
Qed.
